(** * AIMS conversation framework: conversation store and heuristic evaluator

    A shallow embedding of [src/aims/models.py] and [src/aims/evaluation.py],
    of the chat clients of [src/aims/clients.py] and of the turn loop of
    [src/aims/testing.py].

    Conventions of the embedding:
    - a Python [str] whose length or characters matter is a list of Unicode
      code points ([list N]); identifiers that are only compared or used as
      dictionary keys (roles, conversation ids, backend names, JSON keys)
      are byte strings ([string]);
    - a Python [float] is an exact rational ([Q]): rounding is not modelled;
    - a dynamically typed value is a [pyval]; an operation that Python
      rejects at run time raises in the [result] monad;
    - [time.time()], [uuid.uuid4()], the platform (file system, local
      time, recursion limit) and the remote backends are inputs of the
      operations that consult them; what the code prints is not
      modelled. *)

From Stdlib Require Import QArith Qminmax Qround Lqa Lia.
From stdpp Require Import base list strings gmap pretty.

#[local] Set Warnings "-register-all".

(** ** Python values *)

Module Py.

Abbreviation str := (list N).

(** Decoder of UTF-8 source literals into code points. *)
Fixpoint utf8 (bs : list N) : str :=
  match bs with
  | [] => []
  | b0 :: t0 =>
      if (b0 <? 128)%N then b0 :: utf8 t0
      else if (b0 <? 224)%N then
        match t0 with
        | b1 :: t1 => ((b0 - 192) * 64 + (b1 - 128))%N :: utf8 t1
        | _ => []
        end
      else if (b0 <? 240)%N then
        match t0 with
        | b1 :: b2 :: t2 =>
            ((b0 - 224) * 4096 + (b1 - 128) * 64 + (b2 - 128))%N :: utf8 t2
        | _ => []
        end
      else
        match t0 with
        | b1 :: b2 :: b3 :: t3 =>
            ((b0 - 240) * 262144 + (b1 - 128) * 4096
             + (b2 - 128) * 64 + (b3 - 128))%N :: utf8 t3
        | _ => []
        end
  end.

Definition lit (s : string) : str :=
  utf8 (map Ascii.N_of_ascii (String.list_ascii_of_string s)).

(** [str.isspace] on one code point; [str.split()] and [str.strip()]
    use the same set. *)
Definition isspace (c : N) : bool :=
  ((9 <=? c) && (c <=? 13) || (28 <=? c) && (c <=? 32)
   || (c =? 133) || (c =? 160) || (c =? 5760)
   || (8192 <=? c) && (c <=? 8202)
   || (c =? 8232) || (c =? 8233) || (c =? 8239) || (c =? 8287)
   || (c =? 12288))%N.

(** [s.startswith(p)] *)
Fixpoint startswith (p s : str) : bool :=
  match p, s with
  | [], _ => true
  | _ :: _, [] => false
  | a :: p', b :: s' => (a =? b)%N && startswith p' s'
  end.

(** [p in s] *)
Fixpoint contains (p s : str) : bool :=
  startswith p s ||
  match s with
  | [] => false
  | _ :: s' => contains p s'
  end.

(** [s.replace(old, new)] for a non-empty [old]: leftmost
    non-overlapping occurrences; [skip] counts the characters of a matched
    occurrence still to pass over. *)
Fixpoint replace_from (old new : str) (skip : nat) (s : str) : str :=
  match s with
  | [] => []
  | c :: s' =>
      match skip with
      | S k => replace_from old new k s'
      | O =>
          if startswith old s
          then new ++ replace_from old new (length old - 1) s'
          else c :: replace_from old new 0 s'
      end
  end.

Definition replace (old new s : str) : str := replace_from old new 0 s.

(** [s.split(sep)] for a non-empty [sep]; empty fields are kept. *)
Fixpoint split_from (sep : str) (skip : nat) (cur s : str) : list str :=
  match s with
  | [] => [cur]
  | c :: s' =>
      match skip with
      | S k => split_from sep k cur s'
      | O =>
          if startswith sep s
          then cur :: split_from sep (length sep - 1) [] s'
          else split_from sep 0 (cur ++ [c]) s'
      end
  end.

Definition split_on (sep s : str) : list str := split_from sep 0 [] s.

(** [s.split()]: fields between runs of whitespace, none empty. *)
Fixpoint split_ws (cur s : str) : list str :=
  match s with
  | [] => match cur with [] => [] | _ => [cur] end
  | c :: s' =>
      if isspace c
      then match cur with
           | [] => split_ws [] s'
           | _ => cur :: split_ws [] s'
           end
      else split_ws (cur ++ [c]) s'
  end.

Definition split (s : str) : list str := split_ws [] s.

Fixpoint lstrip (s : str) : str :=
  match s with
  | c :: s' => if isspace c then lstrip s' else s
  | [] => []
  end.

(** [s.strip()] *)
Definition strip (s : str) : str := rev (lstrip (rev (lstrip s))).

(** [sep.join(parts)] *)
Fixpoint join (sep : str) (parts : list str) : str :=
  match parts with
  | [] => []
  | [p] => p
  | p :: rest => p ++ sep ++ join sep rest
  end.

(** JSON-like dynamic values: the shapes a message content can take. *)
Inductive pyval :=
| PyStr (s : str)
| PyList (items : list pyval)
| PyDict (d : gmap string pyval)
| PyNone.

Inductive exn :=
| AttributeError | TypeError | KeyError | OSError
| ValueError | OverflowError | RecursionError | UnicodeEncodeError.

Inductive result (A : Type) :=
| Ok (a : A)
| Raise (e : exn).
Arguments Ok {A} a.
Arguments Raise {A} e.

Definition bind {A B} (m : result A) (k : A -> result B) : result B :=
  match m with
  | Ok a => k a
  | Raise e => Raise e
  end.

(** [len(v)] *)
Definition len (v : pyval) : result Z :=
  match v with
  | PyStr s => Ok (Z.of_nat (length s))
  | PyList items => Ok (Z.of_nat (length items))
  | PyDict d => Ok (Z.of_nat (size d))
  | PyNone => Raise TypeError
  end.

(** [sum(xs)] over floats: left to right from 0. *)
Definition sum (xs : list Q) : Q := fold_left Qplus xs 0%Q.

(** A count or a length, as a float operand. *)
Definition fnat (n : nat) : Q := inject_Z (Z.of_nat n).
Definition flen {A} (xs : list A) : Q := fnat (length xs).

(** Library functions the code calls and this development does not
    define: [str.lower], the square root inside [numpy.std], and [str()]
    of a non-string value. *)
Class Builtins := {
  lower : str -> str;
  sqrt : Q -> Q;
  to_str : pyval -> str
}.

(** [numpy.mean] and [numpy.std] (population standard deviation). *)
Definition np_mean (xs : list Q) : Q := (sum xs / flen xs)%Q.

Definition np_std `{Builtins} (xs : list Q) : Q :=
  let m := np_mean xs in
  sqrt (np_mean (map (fun x => ((x - m) * (x - m))%Q) xs)).

(** ASCII-only lower-casing, used to run the model on examples. *)
Definition ascii_lower (s : str) : str :=
  map (fun c => if ((65 <=? c) && (c <=? 90))%N then (c + 32)%N else c) s.

(** Rational square root by Newton iteration, used to run the model on
    examples. *)
Fixpoint newton_sqrt (fuel : nat) (x g : Q) : Q :=
  match fuel with
  | O => g
  | S k => newton_sqrt k x (Qred ((g + x / g) / 2))
  end.

Definition example_builtins : Builtins :=
  {| lower := ascii_lower;
     sqrt := fun x => if Qle_bool x 0 then 0%Q else newton_sqrt 6 x 1;
     to_str := fun _ => lit "None" |}.

Notation "x <- m ;; k" := (bind m (fun x => k))
  (at level 100, m at next level, right associativity).

(** A comprehension whose element expression can raise. *)
Fixpoint mapM {A B} (f : A -> result B) (l : list A) : result (list B) :=
  match l with
  | [] => Ok []
  | a :: l' => b <- f a ;; bs <- mapM f l' ;; Ok (b :: bs)
  end.

End Py.

(** ** Data models ([src/aims/models.py]) *)

Module Models.
Import Py.

(** A Python [dict] that the code iterates over is an association list in
    insertion order. *)
Fixpoint dict_get {V} (k : string) (d : list (string * V)) : option V :=
  match d with
  | [] => None
  | (k', v) :: d' => if String.eqb k' k then Some v else dict_get k d'
  end.

(** [d[k] = v]: an existing key keeps its position, a new key goes last. *)
Fixpoint dict_set {V} (k : string) (v : V) (d : list (string * V))
  : list (string * V) :=
  match d with
  | [] => [(k, v)]
  | (k', v') :: d' =>
      if String.eqb k' k then (k', v) :: d' else (k', v') :: dict_set k v d'
  end.

(** [k in d] *)
Definition dict_has {V} (k : string) (d : list (string * V)) : bool :=
  match dict_get k d with Some _ => true | None => false end.

Record Message := {
  role : string;
  content : pyval;
  timestamp : Q
}.

Record Metrics := {
  total_duration : Q;
  num_turns : nat;
  avg_assistant_response_time : Q;
  avg_assistant_response_length : Q
}.

Record Conversation := {
  id : string;
  api_name : string;
  messages : list Message;
  model : string;
  start_time : Q;
  end_time : option Q;
  metrics : option Metrics
}.

Definition set_messages (ms : list Message) (c : Conversation) :=
  {| id := id c; api_name := api_name c; messages := ms; model := model c;
     start_time := start_time c; end_time := end_time c;
     metrics := metrics c |}.

Definition set_end_time (t : option Q) (c : Conversation) :=
  {| id := id c; api_name := api_name c; messages := messages c;
     model := model c; start_time := start_time c; end_time := t;
     metrics := metrics c |}.

Definition set_metrics (m : option Metrics) (c : Conversation) :=
  {| id := id c; api_name := api_name c; messages := messages c;
     model := model c; start_time := start_time c; end_time := end_time c;
     metrics := m |}.

(** [not self.end_time]: [None] and [0.0] are both falsy. *)
Definition falsy_time (t : option Q) : bool :=
  match t with
  | None => true
  | Some q => Qeq_bool q 0
  end.

Definition is_user (m : Message) : bool := String.eqb (role m) "user".
Definition is_assistant (m : Message) : bool := String.eqb (role m) "assistant".

(** [Conversation.add_message] *)
Definition add_message (message : Message) (c : Conversation) : Conversation :=
  set_messages (messages c ++ [message]) c.

(** [Conversation.end_conversation]; [now] is the value of [time.time()]. *)
Definition end_conversation (now : Q) (c : Conversation) : Conversation :=
  set_end_time (Some now) c.

(** The list [response_times] built by the loop over [range(1, len)]. *)
Definition response_times (msgs : list Message) : list Q :=
  fold_left
    (fun acc i =>
       match msgs !! i, msgs !! (i - 1) with
       | Some cur, Some prev =>
           if is_assistant cur && is_user prev
           then acc ++ [(timestamp cur - timestamp prev)%Q]
           else acc
       | _, _ => acc
       end)
    (seq 1 (length msgs - 1)) [].

Definition _calculate_avg_response_time (msgs : list Message) : Q :=
  match response_times msgs with
  | [] => 0%Q
  | ts => (sum ts / flen ts)%Q
  end.

(** The generator [len(item.get('text', '')) for item in r if
    isinstance(item, dict) and 'text' in item], one item at a time. *)
Definition text_part_length (item : pyval) : result Z :=
  match item with
  | PyDict d =>
      match d !! "text" with
      | Some t => len t
      | None => Ok 0%Z
      end
  | _ => Ok 0%Z
  end.

(** [len(r) if isinstance(r, str) else sum(...)]. Iterating a dict yields
    its keys, which are no dicts; [None] cannot be iterated. *)
Definition content_length (r : pyval) : result Z :=
  match r with
  | PyStr s => Ok (Z.of_nat (length s))
  | PyList items =>
      ls <- mapM text_part_length items ;; Ok (fold_left Z.add ls 0%Z)
  | PyDict _ => Ok 0%Z
  | PyNone => Raise TypeError
  end.

Definition _calculate_avg_response_length (msgs : list Message) : result Q :=
  let responses := map content (filter (fun m => is_assistant m = true) msgs) in
  match responses with
  | [] => Ok 0%Q
  | _ =>
      lengths <- mapM content_length responses ;;
      Ok (inject_Z (fold_left Z.add lengths 0%Z) / flen lengths)%Q
  end.

(** The declared type of [Message.content], [Union[str, List[Dict]]], with
    text parts that are strings. *)
Definition typed_part (item : pyval) : bool :=
  match item with
  | PyDict d =>
      match d !! "text" with
      | Some (PyStr _) | None => true
      | Some _ => false
      end
  | _ => false
  end.

Definition typed_content (v : pyval) : bool :=
  match v with
  | PyStr _ => true
  | PyList items => forallb typed_part items
  | _ => false
  end.

(** [Conversation.calculate_metrics]. The conversation is returned as the
    call leaves it, also when the call raises. *)
Definition calculate_metrics (now : Q) (c : Conversation)
  : Conversation * result Metrics :=
  let c1 := if falsy_time (end_time c) then end_conversation now c else c in
  match end_time c1 with
  | None => (c1, Raise TypeError)
  | Some e =>
      match _calculate_avg_response_length (messages c1) with
      | Raise x => (c1, Raise x)
      | Ok avg_length =>
          let m :=
            {| total_duration := (e - start_time c1)%Q;
               num_turns :=
                 length (filter (fun m => is_user m = true) (messages c1));
               avg_assistant_response_time :=
                 _calculate_avg_response_time (messages c1);
               avg_assistant_response_length := avg_length |} in
          (set_metrics (Some m) c1, Ok m)
      end
  end.

(** The platform, as far as the store depends on it: whether creating a
    directory and opening a path for writing succeed; the nesting depth
    down to which the interpreter's recursion limit lets a content be
    copied and encoded; and the exception, if any, with which
    [datetime.fromtimestamp(t).strftime(...)] fails for a time [t]
    ([OverflowError], [OSError] or [ValueError], by platform). *)
Record FileSystem := {
  makedirs_ok : string -> bool;
  write_ok : string -> bool;
  recursion_limit : nat;
  format_time_error : Q -> option exn
}.

(** A surrogate code point, which the UTF-8 codec refuses to encode. *)
Definition surrogate (c : N) : bool := ((55296 <=? c) && (c <=? 57343))%N.

(** A value whose lists and dicts are nested at most [limit] deep. *)
Fixpoint nested_within (limit : nat) (v : pyval) : bool :=
  match v with
  | PyStr _ | PyNone => true
  | PyList items =>
      match limit with
      | O => false
      | S l => forallb (nested_within l) items
      end
  | PyDict d =>
      match limit with
      | O => false
      | S l => forallb (nested_within l) (map snd (map_to_list d))
      end
  end.

(** A value nested at most [limit] deep none of whose strings holds a
    surrogate. *)
Fixpoint surrogate_free (limit : nat) (v : pyval) : bool :=
  match v with
  | PyStr s => negb (existsb surrogate s)
  | PyNone => true
  | PyList items =>
      match limit with
      | O => true
      | S l => forallb (surrogate_free l) items
      end
  | PyDict d =>
      match limit with
      | O => true
      | S l => forallb (surrogate_free l) (map snd (map_to_list d))
      end
  end.

(** [json.dump(self.to_dict(), f, ...)] into a file opened with the UTF-8
    encoding, as far as the contents of the messages decide it: [asdict]
    copies the contents first and fails on one nested too deep; writing a
    string that holds a surrogate fails then. *)
Definition dump_messages (fs : FileSystem) (msgs : list Message)
  : result unit :=
  if negb (forallb (fun m => nested_within (recursion_limit fs) (content m))
             msgs)
  then Raise RecursionError
  else if forallb (fun m => surrogate_free (recursion_limit fs) (content m))
            msgs
  then Ok tt
  else Raise UnicodeEncodeError.

(** [int(x)] of a float: truncation towards zero. *)
Definition int_of (x : Q) : Z := Z.quot (Qnum x) (Zpos (Qden x)).

(** [Conversation.save_to_file]: the name of the file written. The JSON
    text itself is not modelled, only whether it can be written. *)
Definition save_to_file (fs : FileSystem) (directory : string)
  (c : Conversation) : result string :=
  if negb (makedirs_ok fs directory) then Raise OSError
  else
    let filename :=
      (directory +:+ "/" +:+ api_name c +:+ "_" +:+ id c +:+ "_"
       +:+ pretty (int_of (start_time c)) +:+ ".json")%string in
    if negb (write_ok fs filename) then Raise OSError
    else _ <- dump_messages fs (messages c) ;; Ok filename.

(** *** ConversationManager *)

Record ConversationManager := {
  conversations : list (string * Conversation);
  current_conversation_ids : gmap string (option string)
}.

(** [ConversationManager.__init__] *)
Definition init : ConversationManager :=
  {| conversations := [];
     current_conversation_ids :=
       <["monica" := None]> (<["openai" := None]> (<["gemini" := None]> ∅)) |}.

(** [self.conversations[conv_id] = conversation] *)
Definition register (conv_id : string) (c : Conversation)
  (st : ConversationManager) : ConversationManager :=
  {| conversations := dict_set conv_id c (conversations st);
     current_conversation_ids := current_conversation_ids st |}.

(** [self.current_conversation_ids[api_name] = conv_id] *)
Definition set_current (api : string) (conv_id : string)
  (st : ConversationManager) : ConversationManager :=
  {| conversations := conversations st;
     current_conversation_ids :=
       <[api := Some conv_id]> (current_conversation_ids st) |}.

(** [start_conversation]; [conv_id] is the value of [str(uuid.uuid4())]
    and [now] the value of [time.time()]. *)
Definition start_conversation (conv_id : string) (now : Q)
  (api model_name : string) (st : ConversationManager)
  : ConversationManager * string :=
  let conversation :=
    {| id := conv_id; api_name := api; messages := []; model := model_name;
       start_time := now; end_time := None; metrics := None |} in
  let st1 := register conv_id conversation st in
  let st2 := set_current api conv_id st1 in
  (st2, conv_id).

(** [ConversationManager.add_message] *)
Definition manager_add_message (conv_id : string) (message : Message)
  (st : ConversationManager) : ConversationManager * bool :=
  match dict_get conv_id (conversations st) with
  | Some c => (register conv_id (add_message message c) st, true)
  | None => (st, false)
  end.

(** [ConversationManager.get_conversation] *)
Definition get_conversation (conv_id : string) (st : ConversationManager)
  : option Conversation :=
  dict_get conv_id (conversations st).

(** [ConversationManager.get_current_conversation]; the empty string is a
    falsy id. *)
Definition get_current_conversation (api : string) (st : ConversationManager)
  : option Conversation :=
  match current_conversation_ids st !! api with
  | Some (Some conv_id) =>
      if String.eqb conv_id "" then None
      else dict_get conv_id (conversations st)
  | _ => None
  end.

(** [ConversationManager.end_conversation] *)
Definition manager_end_conversation (now : Q) (conv_id : string)
  (st : ConversationManager) : ConversationManager * bool :=
  match dict_get conv_id (conversations st) with
  | Some c => (register conv_id (end_conversation now c) st, true)
  | None => (st, false)
  end.

(** The loop of [save_all_conversations] over [self.conversations.items()].
    [clock n] is the value of the [n]-th call of [time.time()]; [tick]
    counts the calls made so far. The store entries are returned as the
    loop leaves them, also when it raises. *)
Fixpoint save_each (clock : nat -> Q) (fs : FileSystem) (directory : string)
  (tick : nat) (convs : list (string * Conversation))
  : list (string * Conversation) * result (list string * nat) :=
  match convs with
  | [] => ([], Ok ([], tick))
  | (k, c) :: rest =>
      let '(c1, tick1) :=
        if falsy_time (end_time c)
        then (end_conversation (clock tick) c, S tick)
        else (c, tick) in
      let '(c2, r) := calculate_metrics (clock tick1) c1 in
      let tick2 := if falsy_time (end_time c1) then S tick1 else tick1 in
      match r with
      | Raise e => ((k, c2) :: rest, Raise e)
      | Ok _ =>
          match save_to_file fs directory c2 with
          | Raise e => ((k, c2) :: rest, Raise e)
          | Ok file =>
              let '(rest', r') := save_each clock fs directory tick2 rest in
              ((k, c2) :: rest',
               p <- r' ;; Ok (file :: p.1, p.2))
          end
      end
  end.

(** The row of one conversation in the summary, as far as it can fail:
    formatting the start time, and an end time that is set and not 0.0. *)
Definition summary_row (fs : FileSystem) (c : Conversation) : result unit :=
  match format_time_error fs (start_time c) with
  | Some e => Raise e
  | None =>
      match end_time c with
      | Some t =>
          if Qeq_bool t 0 then Ok tt
          else
            match format_time_error fs t with
            | Some e => Raise e
            | None => Ok tt
            end
      | None => Ok tt
      end
  end.

(** The loop of [_create_summary_csv] over [self.conversations.values()]:
    metrics are computed where they are still missing, then the row is
    built. The text of the rows is not modelled. *)
Fixpoint summary_rows (clock : nat -> Q) (fs : FileSystem) (tick : nat)
  (convs : list (string * Conversation))
  : list (string * Conversation) * result unit :=
  match convs with
  | [] => ([], Ok tt)
  | (k, c) :: rest =>
      match metrics c with
      | Some _ =>
          match summary_row fs c with
          | Raise e => ((k, c) :: rest, Raise e)
          | Ok _ =>
              let '(rest', r) := summary_rows clock fs tick rest in
              ((k, c) :: rest', r)
          end
      | None =>
          let '(c1, r) := calculate_metrics (clock tick) c in
          let tick1 := if falsy_time (end_time c) then S tick else tick in
          match _ <- r ;; summary_row fs c1 with
          | Raise e => ((k, c1) :: rest, Raise e)
          | Ok _ =>
              let '(rest', r') := summary_rows clock fs tick1 rest in
              ((k, c1) :: rest', r')
          end
      end
  end.

(** [ConversationManager._create_summary_csv] *)
Definition _create_summary_csv (clock : nat -> Q) (fs : FileSystem)
  (directory : string) (tick : nat) (st : ConversationManager)
  : ConversationManager * result string :=
  let csv_file :=
    (directory +:+ "/summary_" +:+ pretty (int_of (clock tick))
     +:+ ".csv")%string in
  if negb (write_ok fs csv_file) then (st, Raise OSError)
  else
    let '(convs, r) := summary_rows clock fs (S tick) (conversations st) in
    ({| conversations := convs;
        current_conversation_ids := current_conversation_ids st |},
     _ <- r ;; Ok csv_file).

(** [ConversationManager.save_all_conversations] *)
Definition save_all_conversations (clock : nat -> Q) (fs : FileSystem)
  (directory : string) (st : ConversationManager)
  : ConversationManager * result (list string) :=
  if negb (makedirs_ok fs directory) then (st, Raise OSError)
  else
    let '(convs, r) := save_each clock fs directory 0 (conversations st) in
    let st1 :=
      {| conversations := convs;
         current_conversation_ids := current_conversation_ids st |} in
    match r with
    | Raise e => (st1, Raise e)
    | Ok (saved_files, tick) =>
        let '(st2, r2) := _create_summary_csv clock fs directory tick st1 in
        (st2, _ <- r2 ;; Ok saved_files)
    end.

End Models.

(** ** Heuristic evaluator ([src/aims/evaluation.py]) *)

Module Evaluation.
Import Py.

(** Dimension name and weight (the descriptions play no role). *)
Definition EVALUATION_DIMENSIONS : list (string * Q) :=
  [("relevance", 0.25%Q); ("accuracy", 0.25%Q); ("completeness", 0.20%Q);
   ("coherence", 0.15%Q); ("creativity", 0.15%Q)].

Record DimensionScore := {
  score : Q;
  weight : Q
}.

(** The dictionary [evaluate_response] returns. *)
Record ResponseEvaluation := {
  dimensions : list (string * DimensionScore);
  total_score : Q
}.

(** The dictionary [evaluate_conversation] returns: the scores, or
    [{"error": ...}]. *)
Inductive ConversationEvaluation :=
| Evaluated (turn_scores : list ResponseEvaluation) (average_score : Q)
    (average_dimensions : list (string * Q))
| EvaluationError (error : string).

Definition nl : str := [10%N].

Definition uncertainty_phrases : list str :=
  [lit "我不确定"; lit "可能"; lit "也许"; lit "我猜"; lit "不太清楚";
   lit "不太确定"].

Definition fact_indicators : list str :=
  [lit "事实上"; lit "研究表明"; lit "数据显示"; lit "根据"; lit "证明";
   lit "证实"].

Definition structure_indicators : list str :=
  [lit "："; lit ":"; nl ++ lit "-"; nl ++ lit "•"; nl ++ lit "*";
   nl ++ lit "1."; lit "首先"; lit "其次"; lit "最后"; lit "总结"].

Definition connectors : list str :=
  [lit "因此"; lit "所以"; lit "然而"; lit "但是"; lit "此外"; lit "另外";
   lit "总之"; lit "首先"; lit "其次"; lit "最后"].

Definition rhetoric_phrases : list str :=
  [lit "就像"; lit "类似于"; lit "可以比作"; lit "想象"; lit "比如说";
   lit "形象地说"].

(** [sum(phrase in text for phrase in phrases)] *)
Definition count_in (phrases : list str) (text : str) : Q :=
  flen (filter (fun p => contains p text = true) phrases).

(** [max(1, n)] on integers, as a float operand. *)
Definition at_least_one (n : nat) : Q := inject_Z (Z.max 1 (Z.of_nat n)).

(** [d[k]] *)
Definition getitem {V} (k : string) (d : list (string * V)) : result V :=
  match Models.dict_get k d with
  | Some v => Ok v
  | None => Raise KeyError
  end.

Section Evaluator.
Context `{Builtins}.
(** [self.dimensions] *)
Variable self_dimensions : list (string * Q).

Definition _tokenize (text : str) : list str :=
  split
    (replace (lit "、") (lit " ")
       (replace (lit "？") (lit " ")
          (replace (lit "！") (lit " ")
             (replace (lit "。") (lit " ")
                (replace (lit "，") (lit " ") text))))).

(** [set(self._tokenize(text.lower()))] *)
Definition word_set (text : str) : gset str :=
  list_to_set (_tokenize (lower text)).

(** The local [overlap] of [_evaluate_relevance]. *)
Definition keyword_overlap (prompt response : str) : Q :=
  let prompt_words := word_set prompt in
  let response_words := word_set response in
  (fnat (size (prompt_words ∩ response_words))
   / at_least_one (size prompt_words))%Q.

(** The local [length_factor] of [_evaluate_relevance]. *)
Definition length_factor (response : str) : Q :=
  (Qmin 1 (flen response / 1000)
   * Qmin 1 (5000 / at_least_one (length response)))%Q.

Definition _evaluate_relevance (prompt response : str) : Q :=
  let overlap := keyword_overlap prompt response in
  let score := (0.7 + (0.3 * overlap * length_factor response))%Q in
  Qmin 1 (Qmax 0 score).

Definition _evaluate_accuracy (prompt response : str) : Q :=
  let uncertainty_count := count_in uncertainty_phrases (lower response) in
  let fact_count := count_in fact_indicators (lower response) in
  let base_score := 0.8%Q in
  let score :=
    (base_score - (uncertainty_count * 0.05) + (fact_count * 0.03))%Q in
  Qmin 1 (Qmax 0.5 score).

Definition _evaluate_completeness (prompt response : str) : Q :=
  let length_score := Qmin 1 (flen response / 500) in
  let has_structure :=
    existsb (fun indicator => contains indicator response)
      structure_indicators in
  let structure_score := if has_structure then 0.2%Q else 0%Q in
  let score := (0.7 * length_score + 0.3 + structure_score)%Q in
  Qmin 1 score.

Definition _evaluate_coherence (prompt response : str)
  (context : list (str * str)) : Q :=
  let base_score := 0.8%Q in
  let paragraphs := split_on (nl ++ nl) response in
  let paragraph_score := (Qmin 1 (flen paragraphs / 3) * 0.1)%Q in
  let connector_count := count_in connectors (lower response) in
  let connector_score := Qmin 0.1 (connector_count * 0.02) in
  let context_score :=
    match context with
    | [] => 0%Q
    | _ =>
        let prev_responses := join (lit " ") (map snd context) in
        let prev_prompts := join (lit " ") (map fst context) in
        let prev_words :=
          word_set (prev_responses ++ lit " " ++ prev_prompts) in
        let response_words := word_set response in
        let context_overlap :=
          (fnat (size (prev_words ∩ response_words))
           / at_least_one (size response_words))%Q in
        (context_overlap * 0.1)%Q
    end in
  let score :=
    (base_score + paragraph_score + connector_score + context_score)%Q in
  Qmin 1 score.

Definition _evaluate_creativity (response : str) : Q :=
  let rhetoric_count := count_in rhetoric_phrases (lower response) in
  let words := _tokenize (lower response) in
  let unique_words : gset str := list_to_set words in
  let vocabulary_diversity :=
    (fnat (size unique_words) / at_least_one (length words))%Q in
  let sentences :=
    filter (fun s => s <> [])
      (map strip
         (split_on (lit "。")
            (replace (lit "?") (lit ".")
               (replace (lit "!") (lit ".")
                  (replace (lit "？") (lit "。")
                     (replace (lit "！") (lit "。") response)))))) in
  let sentence_lengths := map (fun s => flen s) sentences in
  let sentence_diversity :=
    match sentences with
    | [] => 0%Q
    | _ => (np_std sentence_lengths / Qmax 1 (np_mean sentence_lengths))%Q
    end in
  let base_score := 0.7%Q in
  let rhetoric_score := Qmin 0.1 (rhetoric_count * 0.03) in
  let diversity_score := (vocabulary_diversity * 0.1)%Q in
  let sentence_score := Qmin 0.1 (sentence_diversity * 0.5) in
  let score :=
    (base_score + rhetoric_score + diversity_score + sentence_score)%Q in
  Qmin 1 (Qmax 0.5 score).

(** The dictionary [scores], in insertion order. *)
Definition dimension_scores (prompt response : str)
  (context : list (str * str)) : list (string * Q) :=
  [("relevance", _evaluate_relevance prompt response);
   ("accuracy", _evaluate_accuracy prompt response);
   ("completeness", _evaluate_completeness prompt response);
   ("coherence", _evaluate_coherence prompt response context);
   ("creativity", _evaluate_creativity response)].

(** The loop [for dim, score in scores.items(): total_score += ...]. *)
Fixpoint weighted_total (total : Q) (scores : list (string * Q)) : result Q :=
  match scores with
  | [] => Ok total
  | (dim, s) :: rest =>
      w <- getitem dim self_dimensions ;;
      weighted_total (total + s * w)%Q rest
  end.

Definition evaluate_response (prompt response : str)
  (context : list (str * str)) : result ResponseEvaluation :=
  let scores := dimension_scores prompt response context in
  total <- weighted_total 0%Q scores ;;
  dims <- mapM
            (fun '(dim, s) =>
               w <- getitem dim self_dimensions ;;
               Ok (dim, {| score := s; weight := w |}))
            scores ;;
  Ok {| dimensions := dims; total_score := total |}.

(** [evaluate_response] on dynamically typed arguments: a prompt or a
    response that is no [str] has no [lower] method, which the first
    dimension evaluated finds out. *)
Definition evaluate_response_dyn (prompt response : pyval)
  (context : list (str * str)) : result ResponseEvaluation :=
  match prompt, response with
  | PyStr p, PyStr r => evaluate_response p r context
  | _, _ => Raise AttributeError
  end.

(** [" ".join(xs)] accepts only strings. *)
Definition as_str (v : pyval) : result str :=
  match v with
  | PyStr s => Ok s
  | _ => Raise TypeError
  end.

(** The items a list content contributes to [prompt_texts]. *)
Definition text_items (items : list pyval) : list pyval :=
  omap (fun item =>
          match item with
          | PyDict d => d !! "text"
          | _ => None
          end) items.

(** The [if not isinstance(prompt, str)] block of [evaluate_conversation]. *)
Definition extract_text (prompt : pyval) : result pyval :=
  match prompt with
  | PyStr _ => Ok prompt
  | PyList items =>
      prompt_texts <- mapM as_str (text_items items) ;;
      Ok (PyStr (join (lit " ") prompt_texts))
  | PyDict d =>
      match d !! "text" with
      | Some t => Ok t
      | None => Ok (PyStr (to_str prompt))
      end
  | PyNone => Ok (PyStr (to_str prompt))
  end.

(** [range(0, n, 2)] *)
Definition range_by_two (n : nat) : list nat :=
  map (fun k => 2 * k) (seq 0 (Nat.div2 (n + 1))).

(** One iteration of the loop of [evaluate_conversation], on the state
    [(scores, context)]. *)
Definition evaluate_turn (messages : list Models.Message)
  (state : list ResponseEvaluation * list (str * str)) (i : nat)
  : result (list ResponseEvaluation * list (str * str)) :=
  let '(scores, context) := state in
  if (i + 1 <? length messages)%nat then
    match messages !! i, messages !! (i + 1)%nat with
    | Some m, Some m' =>
        let response := Models.content m' in
        prompt <- extract_text (Models.content m) ;;
        s <- evaluate_response_dyn prompt response context ;;
        match prompt, response with
        | PyStr p, PyStr r => Ok (scores ++ [s], context ++ [(p, r)])
        | _, _ => Raise AttributeError
        end
    | _, _ => Ok state
    end
  else Ok state.

Fixpoint evaluate_turns (messages : list Models.Message)
  (state : list ResponseEvaluation * list (str * str)) (indices : list nat)
  : result (list ResponseEvaluation * list (str * str)) :=
  match indices with
  | [] => Ok state
  | i :: rest =>
      state' <- evaluate_turn messages state i ;;
      evaluate_turns messages state' rest
  end.

(** [sum(score["dimensions"][dim]["score"] for score in scores) / len(scores)] *)
Definition average_dimension (scores : list ResponseEvaluation)
  (dim : string) : result (string * Q) :=
  xs <- mapM (fun s => d <- getitem dim (dimensions s) ;; Ok (score d))
          scores ;;
  Ok (dim, (sum xs / flen scores)%Q).

Definition evaluate_conversation (messages : list Models.Message)
  : result ConversationEvaluation :=
  final <- evaluate_turns messages ([], [])
             (range_by_two (length messages)) ;;
  let scores := final.1 in
  match scores with
  | [] => Ok (EvaluationError "No valid turns to evaluate")
  | _ =>
      let avg_total := (sum (map total_score scores) / flen scores)%Q in
      avg_dimensions <- mapM (fun '(dim, _) => average_dimension scores dim)
                          self_dimensions ;;
      Ok (Evaluated scores avg_total avg_dimensions)
  end.

End Evaluator.

End Evaluation.

(** ** Reference definitions, in the words of the specification *)

Module Spec.
Import Py Models.

(** The number of messages whose role is [r]. *)
Fixpoint count_role (r : string) (msgs : list Message) : nat :=
  match msgs with
  | [] => 0
  | m :: rest =>
      if String.eqb (role m) r then S (count_role r rest)
      else count_role r rest
  end.

(** Message [i] has role assistant and message [i - 1] has role user. *)
Definition adjacent_pair (msgs : list Message) (i : nat) : bool :=
  (1 <=? i)%nat &&
  match msgs !! i, msgs !! (i - 1) with
  | Some cur, Some prev =>
      String.eqb (role cur) "assistant" && String.eqb (role prev) "user"
  | _, _ => false
  end.

(** Timestamp of message [i] minus timestamp of message [i - 1]. *)
Definition gap (msgs : list Message) (i : nat) : Q :=
  match msgs !! i, msgs !! (i - 1) with
  | Some cur, Some prev => (timestamp cur - timestamp prev)%Q
  | _, _ => 0%Q
  end.

(** Arithmetic mean; 0 for no values. *)
Definition mean (xs : list Q) : Q :=
  match xs with
  | [] => 0%Q
  | _ => (fold_right Qplus 0 xs / fnat (length xs))%Q
  end.

Definition mean_adjacent_gap (msgs : list Message) : Q :=
  mean (map (gap msgs)
          (filter (fun i => adjacent_pair msgs i = true)
             (seq 0 (length msgs)))).

(** The store invariant: every current-conversation pointer that is set
    names a conversation of the store. *)
Definition store_invariant (st : ConversationManager) : Prop :=
  forall api conv_id,
    current_conversation_ids st !! api = Some (Some conv_id) ->
    is_Some (get_conversation conv_id st).

(** The operations of the store, with the clock, identifier and file
    system inputs of each; [CalculateMetrics] stands for a caller that
    computes the metrics through the handle [get_conversation] gave it. *)
Inductive operation :=
| StartConversation (conv_id : string) (now : Q) (api model_name : string)
| AddMessage (conv_id : string) (message : Message)
| GetConversation (conv_id : string)
| GetCurrentConversation (api : string)
| EndConversation (now : Q) (conv_id : string)
| CalculateMetrics (now : Q) (conv_id : string)
| SaveAllConversations (clock : nat -> Q) (fs : FileSystem)
    (directory : string).

(** The store an operation leaves behind, whether it returns or raises. *)
Definition run (o : operation) (st : ConversationManager)
  : ConversationManager :=
  match o with
  | StartConversation conv_id now api model_name =>
      (start_conversation conv_id now api model_name st).1
  | AddMessage conv_id message => (manager_add_message conv_id message st).1
  | GetConversation _ | GetCurrentConversation _ => st
  | EndConversation now conv_id => (manager_end_conversation now conv_id st).1
  | CalculateMetrics now conv_id =>
      match get_conversation conv_id st with
      | Some c => register conv_id (calculate_metrics now c).1 st
      | None => st
      end
  | SaveAllConversations clock fs directory =>
      (save_all_conversations clock fs directory st).1
  end.

Inductive reachable : ConversationManager -> Prop :=
| reachable_init : reachable init
| reachable_run o st : reachable st -> reachable (run o st).

(** The turns of a conversation: message [2k] as prompt with message
    [2k + 1] as response, for every [k] below half the number of messages
    (rounded down). *)
Definition turns (msgs : list Message) : list (Message * Message) :=
  omap (fun k =>
          match msgs !! (2 * k)%nat, msgs !! (2 * k + 1)%nat with
          | Some m, Some m' => Some (m, m')
          | _, _ => None
          end)
    (seq 0 (length msgs / 2)).

(** A turn whose prompt yields the text [p] and whose response is the
    text [r]. *)
Definition turn_texts `{Builtins} (turn : Message * Message)
  (texts : str * str) : Prop :=
  Evaluation.extract_text (content turn.1) = Ok (PyStr texts.1)
  /\ content turn.2 = PyStr texts.2.

(** Scoring turns in order, each against the turns before it. *)
Fixpoint score_turns `{Builtins} (dims : list (string * Q))
  (context : list (str * str)) (texts : list (str * str))
  : result (list Evaluation.ResponseEvaluation) :=
  match texts with
  | [] => Ok []
  | (p, r) :: rest =>
      s <- Evaluation.evaluate_response dims p r context ;;
      ss <- score_turns dims (context ++ [(p, r)]) rest ;;
      Ok (s :: ss)
  end.

(** The per-turn scores an evaluation reports; none with the error
    marker. *)
Definition turn_scores_of (ev : Evaluation.ConversationEvaluation)
  : list Evaluation.ResponseEvaluation :=
  match ev with
  | Evaluation.Evaluated scores _ _ => scores
  | Evaluation.EvaluationError _ => []
  end.

(** An evaluation that carries the five default dimensions. *)
Definition default_dimensions (s : Evaluation.ResponseEvaluation) : Prop :=
  exists rel acc comp coh cre,
    Evaluation.dimensions s
    = [("relevance", rel); ("accuracy", acc); ("completeness", comp);
       ("coherence", coh); ("creativity", cre)].

(** The relevance score as the specification words it: a response of 200
    to 5000 characters is not penalized for its length. *)
Definition relevance_as_claimed `{Builtins} : Prop :=
  forall prompt response : str,
    (200 <= length response <= 5000)%nat ->
    (Evaluation._evaluate_relevance prompt response
     == 0.7 + 0.3 * Evaluation.keyword_overlap prompt response)%Q.

End Spec.

(** ** Example inputs *)

Module Examples.
Import Py Models.

Definition text_message (r : string) (text : string) (t : Q) : Message :=
  {| role := r; content := PyStr (lit text); timestamp := t |}.

Definition conversation_of (msgs : list Message) : Conversation :=
  {| id := "c1"; api_name := "openai"; messages := msgs; model := "gpt-4.1";
     start_time := 100%Q; end_time := None; metrics := None |}.

(** Two turns and a pending third prompt. *)
Definition two_turns : list Message :=
  [text_message "user" "What is AI?" 101;
   text_message "assistant" "AI is artificial intelligence." 103;
   text_message "user" "Give an example" 110;
   text_message "assistant" "A chess program, for example." 115;
   text_message "user" "Thanks" 120].

Definition two_turns_texts : list (str * str) :=
  [(lit "What is AI?", lit "AI is artificial intelligence.");
   (lit "Give an example", lit "A chess program, for example.")].

Definition one_message : list Message := [text_message "user" "Hello" 1].

(** The session of the specification: a conversation with a backend, two
    turns, then the end of the conversation. *)
Definition openai_session : ConversationManager :=
  let st := (start_conversation "id-1" 100 "openai" "gpt-4.1" init).1 in
  let st := (manager_add_message "id-1" (text_message "user" "Hi" 101) st).1 in
  let st :=
    (manager_add_message "id-1" (text_message "assistant" "Hello" 102) st).1 in
  let st := (manager_add_message "id-1" (text_message "user" "Bye" 103) st).1 in
  let st :=
    (manager_add_message "id-1" (text_message "assistant" "Goodbye" 105) st).1 in
  (manager_end_conversation 106 "id-1" st).1.

(** A prompt of one word and a response of 500 characters that repeats
    it. *)
Definition prompt_ai : str := lit "ai".
Definition response_500 : str := lit "ai " ++ repeat 120%N 497.

(** A text part and an image part, as the clients build them. *)
Definition text_and_image (text : string) : pyval :=
  PyList
    [PyDict (<["type" := PyStr (lit "text")]>
               (<["text" := PyStr (lit text)]> ∅));
     PyDict (<["type" := PyStr (lit "image_url")]>
               (<["image_url" :=
                    PyDict (<["url" := PyStr (lit "http://x/cat.png")]> ∅)]>
                  ∅))].

Definition structured_prompt : list Message :=
  [{| role := "user"; content := text_and_image "Describe this";
      timestamp := 1 |};
   text_message "assistant" "A cat." 2].

Definition plain_prompt : list Message :=
  [text_message "user" "Describe this" 1;
   text_message "assistant" "A cat." 2].

(** A response made of one text part. *)
Definition structured_response : list Message :=
  [text_message "user" "Describe this" 1;
   {| role := "assistant";
      content :=
        PyList [PyDict (<["type" := PyStr (lit "text")]>
                          (<["text" := PyStr (lit "A cat.")]> ∅))];
      timestamp := 2 |}].

End Examples.

(** ** Backend clients ([src/aims/clients.py]) and the multi-turn driver
    ([src/aims/testing.py]) *)

Module Clients.
Import Py Models.

(** The vendor side of a call: whether the client can be set up, and what
    the completion request yields for the messages sent, the content of
    the reply or an exception. *)
Record Vendor := {
  client_ok : bool;
  reply : list Message -> result pyval
}.

(** [if conversation_id:] keeps an identifier that is neither [None] nor
    empty. *)
Definition given_id (conversation_id : option string) : option string :=
  match conversation_id with
  | Some conv_id => if String.eqb conv_id "" then None else Some conv_id
  | None => None
  end.

(** [if image_url:] *)
Definition given_url (image_url : option str) : option str :=
  match image_url with
  | Some [] | None => None
  | Some url => Some url
  end.

(** The content of the user message of the chat-completions clients. *)
Definition chat_content (prompt : str) (image_url : option str) : pyval :=
  match given_url image_url with
  | Some url =>
      PyList
        [PyDict (<["type" := PyStr (lit "text")]>
                   (<["text" := PyStr prompt]> ∅));
         PyDict (<["type" := PyStr (lit "image_url")]>
                   (<["image_url" := PyDict (<["url" := PyStr url]> ∅)]> ∅))]
  | None => PyStr prompt
  end.

(** [send_message] of [MonicaClient] and [OpenAIClient], which differ in
    the backend name and the model. [uuid] is the identifier a new
    conversation gets and [clock n] the [n]-th reading of [time.time()].
    The result is the reply's content with the conversation identifier, or
    [None] for the pair [(None, None)] of the [except] branch. *)
Definition chat_send_message (api model_name : string) (vendor : Vendor)
  (uuid : string) (clock : nat -> Q) (prompt : str)
  (image_url : option str) (conversation_id : option string)
  (st : ConversationManager)
  : ConversationManager * option (pyval * string) :=
  if negb (client_ok vendor) then (st, None)
  else
    let '(st1, conv_id, tick) :=
      match given_id conversation_id with
      | Some conv_id => (st, conv_id, 0%nat)
      | None =>
          let started := start_conversation uuid (clock 0%nat) api model_name st in
          (started.1, started.2, 1%nat)
      end in
    match get_conversation conv_id st1 with
    | None => (st1, None)
    | Some conversation =>
        let user_message :=
          {| role := "user"; content := chat_content prompt image_url;
             timestamp := clock tick |} in
        let conversation1 := add_message user_message conversation in
        let st2 := register conv_id conversation1 st1 in
        match reply vendor (messages conversation1) with
        | Raise _ => (st2, None)
        | Ok answer =>
            let assistant_message :=
              {| role := "assistant"; content := answer;
                 timestamp := clock (tick + 2)%nat |} in
            (register conv_id (add_message assistant_message conversation1) st2,
             Some (answer, conv_id))
        end
    end.

(** [MonicaClient.send_message] *)
Definition monica_send_message := chat_send_message "monica" "gpt-4o".

(** [OpenAIClient.send_message]: the vision model with an image, the text
    model without. *)
Definition openai_send_message (vendor : Vendor) (uuid : string)
  (clock : nat -> Q) (prompt : str) (image_url : option str) :=
  chat_send_message "openai"
    (match given_url image_url with
     | Some _ => "gpt-4.1"
     | None => "gpt-4.1"
     end) vendor uuid clock prompt image_url.

(** The image download loop of [GeminiClient.send_message].
    [download_ok attempt] tells whether downloading and decoding succeed
    at that attempt. The result tells whether the image is sent along, and
    lists the delays slept, in seconds. *)
Fixpoint download_image (download_ok : nat -> bool) (max_retries : nat)
  (attempts : list nat) (retry_delay : Z) : bool * list Z :=
  match attempts with
  | [] => (false, [])
  | attempt :: rest =>
      if download_ok attempt then (true, [])
      else if (attempt <? max_retries - 1)%nat then
        let further :=
          download_image download_ok max_retries rest (retry_delay * 2) in
        (further.1, retry_delay :: further.2)
      else download_image download_ok max_retries rest retry_delay
  end.

Definition fetch_image (download_ok : nat -> bool) : bool * list Z :=
  download_image download_ok 3 (seq 0 3) 2.

(** One turn of a flow: the prompt, the image, and what the backend and
    the environment do during the call. *)
Record Turn := {
  prompt : str;
  image_url : option str;
  vendor : Vendor;
  uuid : string;
  clock : nat -> Q
}.

(** The loop over the turns of a flow in [multi_turn_test], for a backend
    whose [send_message] is [send]: the identifier each call returns is
    passed to the next one, and the first failed call ends the loop. *)
Fixpoint run_turns
  (send : Vendor -> string -> (nat -> Q) -> str -> option str ->
          option string -> ConversationManager ->
          ConversationManager * option (pyval * string))
  (turns : list Turn) (conversation_id : option string)
  (turn_results : list (str * pyval)) (st : ConversationManager)
  : ConversationManager * option string * list (str * pyval) :=
  match turns with
  | [] => (st, conversation_id, turn_results)
  | turn :: rest =>
      match send (vendor turn) (uuid turn) (clock turn) (prompt turn)
              (image_url turn) conversation_id st with
      | (st', None) => (st', None, turn_results)
      | (st', Some (response, conv_id)) =>
          run_turns send rest (Some conv_id)
            (turn_results ++ [(prompt turn, response)]) st'
      end
  end.

End Clients.

(** ** Batch evaluation ([evaluate_api_responses] of [src/aims/evaluation.py]) *)

Module Batch.
Import Py Models Evaluation.

(** [needle in hay] on byte strings. *)
Fixpoint str_contains (needle hay : string) : bool :=
  String.prefix needle hay ||
  match hay with
  | EmptyString => false
  | String _ rest => str_contains needle rest
  end.

(** The inner loop over the files of one directory. *)
Fixpoint find_in_files (conversation_id api_name root : string)
  (files : list string) : option string :=
  match files with
  | [] => None
  | file :: rest =>
      if str_contains conversation_id file && str_contains api_name file
      then Some (root +:+ "/" +:+ file)
      else find_in_files conversation_id api_name root rest
  end.

(** The loops over [os.walk('conversations')], given as the list of its
    directories with their files: the first match ends both loops. *)
Fixpoint find_conversation_file (conversation_id api_name : string)
  (walk : list (string * list string)) : option string :=
  match walk with
  | [] => None
  | (root, files) :: rest =>
      match find_in_files conversation_id api_name root files with
      | Some conv_file => Some conv_file
      | None => find_conversation_file conversation_id api_name rest
      end
  end.

(** The entry of one backend in a flow's [api_evaluations]. *)
Inductive ApiEvaluation :=
| Outcome (ev : ConversationEvaluation)
| FileNotFound
| EvaluationFailed (e : exn).

(** ["error" in api_eval] *)
Definition has_error (api_eval : ApiEvaluation) : bool :=
  match api_eval with
  | Outcome (Evaluated _ _ _) => false
  | _ => true
  end.

(** [api_eval.get('average_score', 0)] *)
Definition average_score_of (api_eval : ApiEvaluation) : Q :=
  match api_eval with
  | Outcome (Evaluated _ average_score _) => average_score
  | _ => 0%Q
  end.

(** The body of the loop over the backends of one flow. [load] reads and
    parses a conversation file: its messages, or the exception raised. *)
Definition evaluate_api `{Builtins} (walk : list (string * list string))
  (load : string -> result (list Message))
  (test_evaluation : list (string * ApiEvaluation))
  (api_name : string) (conversation_id : option string)
  : list (string * ApiEvaluation) :=
  match conversation_id with
  | None => test_evaluation
  | Some conversation_id =>
      if String.eqb conversation_id "" then test_evaluation
      else
        match find_conversation_file conversation_id api_name walk with
        | None => dict_set api_name FileNotFound test_evaluation
        | Some conv_file =>
            match
              messages <- load conv_file ;;
              evaluate_conversation EVALUATION_DIMENSIONS messages
            with
            | Ok evaluation =>
                dict_set api_name (Outcome evaluation) test_evaluation
            | Raise e =>
                dict_set api_name (EvaluationFailed e) test_evaluation
            end
        end
  end.

(** The evaluations of one flow, from its [api_results]. *)
Definition evaluate_flow `{Builtins} (walk : list (string * list string))
  (load : string -> result (list Message))
  (api_results : list (string * option string))
  : list (string * ApiEvaluation) :=
  fold_left (fun acc '(api_name, conversation_id) =>
               evaluate_api walk load acc api_name conversation_id)
    api_results [].

(** One step of the loop that gathers the average scores per backend. *)
Definition collect_score (api_overall_scores : list (string * list Q))
  (entry : string * ApiEvaluation) : list (string * list Q) :=
  let '(api_name, api_eval) := entry in
  if has_error api_eval then api_overall_scores
  else
    let scores :=
      match dict_get api_name api_overall_scores with
      | Some scores => scores
      | None => []
      end in
    dict_set api_name (scores ++ [average_score_of api_eval])
      api_overall_scores.

Definition collect_scores
  (evaluation_results : list (string * list (string * ApiEvaluation)))
  : list (string * list Q) :=
  fold_left (fun acc '(_, test_eval) => fold_left collect_score test_eval acc)
    evaluation_results [].

(** The loop that replaces each list of scores by its average. *)
Definition overall_scores
  (evaluation_results : list (string * list (string * ApiEvaluation)))
  : list (string * Q) :=
  map (fun '(api_name, scores) =>
         (api_name,
          match scores with
          | [] => 0%Q
          | _ => (Py.sum scores / flen scores)%Q
          end))
    (collect_scores evaluation_results).

(** The average scores a backend obtained, over all flows in order. *)
Definition scores_of (api_name : string)
  (evaluation_results : list (string * list (string * ApiEvaluation)))
  : list Q :=
  flat_map (fun '(_, test_eval) =>
              omap (fun '(name, api_eval) =>
                      if String.eqb name api_name && negb (has_error api_eval)
                      then Some (average_score_of api_eval) else None)
                test_eval)
    evaluation_results.

(** The loop over the flows of the results file, given as its entries
    with the [api_results] of each (backend and conversation identifier). *)
Definition evaluate_flows `{Builtins} (walk : list (string * list string))
  (load : string -> result (list Message))
  (results : list (string * list (string * option string)))
  : list (string * list (string * ApiEvaluation)) :=
  map (fun '(flow_id, api_results) =>
         (flow_id, evaluate_flow walk load api_results)) results.

(** What [evaluate_api_responses] returns for a results file that could
    be read: the evaluations of each flow, and ["overall_scores"]. *)
Definition evaluate_api_responses `{Builtins}
  (walk : list (string * list string))
  (load : string -> result (list Message))
  (results : list (string * list (string * option string)))
  : list (string * list (string * ApiEvaluation)) * list (string * Q) :=
  let evaluation_results := evaluate_flows walk load results in
  (evaluation_results, overall_scores evaluation_results).

End Batch.

(** ** Notions used to state the properties of the code *)

Module Reference.
Import Py Models Evaluation Spec Batch Clients.

(** The text length of a content of the declared type: the characters of
    a string, or of the string text parts of a list. *)
Definition text_length (v : pyval) : Z :=
  match v with
  | PyStr s => Z.of_nat (length s)
  | PyList items =>
      fold_right Z.add 0%Z
        (map (fun item =>
                match item with
                | PyDict d =>
                    match d !! "text" with
                    | Some (PyStr s) => Z.of_nat (length s)
                    | _ => 0%Z
                    end
                | _ => 0%Z
                end) items)
  | _ => 0%Z
  end.

(** The assistant messages of a conversation. *)
Definition assistant_messages (msgs : list Message) : list Message :=
  filter (fun m => role m = "assistant") msgs.

(** Adding messages to one conversation of the store, one call after the
    other. *)
Definition add_messages (conv_id : string) (ms : list Message)
  (st : ConversationManager) : ConversationManager :=
  foldl (fun st m => (manager_add_message conv_id m st).1) st ms.

(** What a successful save makes of one conversation. *)
Definition saved_from (c c' : Conversation) : Prop :=
  messages c' = messages c /\ id c' = id c /\ api_name c' = api_name c
  /\ start_time c' = start_time c
  /\ is_Some (end_time c')
  /\ exists m, metrics c' = Some m
               /\ num_turns m = count_role "user" (messages c).

(** A conversation that the platform can save and summarize: contents
    of the declared type that [json.dump] accepts, and a start time and,
    where set, an end time that the platform formats. *)
Definition saveable (fs : FileSystem) (c : Conversation) : Prop :=
  Forall (fun m => typed_content (content m) = true) (messages c)
  /\ dump_messages fs (messages c) = Ok tt
  /\ format_time_error fs (start_time c) = None
  /\ (forall t, end_time c = Some t -> format_time_error fs t = None).

(** The punctuation marks [_tokenize] turns into spaces: the fullwidth
    comma, the ideographic full stop, the fullwidth exclamation and
    question marks, and the ideographic comma. *)
Definition token_separators : list N :=
  [65292; 12290; 65281; 65311; 12289]%N.

(** The score an evaluation gives to a dimension; 0 for a dimension it
    does not have. *)
Definition dimension_score (dim : string) (s : ResponseEvaluation) : Q :=
  match dict_get dim (dimensions s) with
  | Some d => score d
  | None => 0%Q
  end.

(** An evaluation whose five scores and whose total lie in [0, 1]. *)
Definition scored_in_unit_range (s : ResponseEvaluation) : Prop :=
  default_dimensions s
  /\ (0 <= total_score s <= 1)%Q
  /\ Forall (fun kv => 0 <= score kv.2 <= 1)%Q (dimensions s).

(** The entry of a backend in the gathered scores: none before its first
    score. *)
Definition gathered (api_name : string) (acc : list (string * list Q))
  (scores : list Q) : Prop :=
  dict_get api_name acc = match scores with [] => None | _ => Some scores end.

(** An entry that, if it is counted, carries an average in [0, 1]. *)
Definition countable_in_unit_range (api_eval : ApiEvaluation) : Prop :=
  has_error api_eval = false -> (0 <= average_score_of api_eval <= 1)%Q.

(** The two messages a successful call adds: the prompt, at the clock
    reading [tick], and the reply, two readings later. *)
Definition exchange (turn : Turn) (tick : nat) (answer : pyval)
  : list Message :=
  [{| role := "user";
      content := chat_content (prompt turn) (image_url turn);
      timestamp := clock turn tick |};
   {| role := "assistant"; content := answer;
      timestamp := clock turn (tick + 2) |}].

(** A turn whose call succeeds with the text [answer]. *)
Definition answered (turn : Turn) (answer : str) : Prop :=
  client_ok (vendor turn) = true
  /\ forall msgs, reply (vendor turn) msgs = Ok (PyStr answer).

(** The exchanges of the turns after the first one. *)
Fixpoint exchanges (flow : list Turn) (answers : list str) : list Message :=
  match flow, answers with
  | turn :: flow', answer :: answers' =>
      exchange turn 0 (PyStr answer) ++ exchanges flow' answers'
  | _, _ => []
  end.

(** The prompts of a flow with the replies to them. *)
Fixpoint exchanged_texts (flow : list Turn) (answers : list str)
  : list (str * str) :=
  match flow, answers with
  | turn :: flow', answer :: answers' =>
      (prompt turn, answer) :: exchanged_texts flow' answers'
  | _, _ => []
  end.

(** Messages that alternate between a user prompt yielding the text [p]
    and an assistant reply that is the text [r]. *)
Inductive alternating `{Builtins}
  : list Message -> list (str * str) -> Prop :=
| alternating_nil : alternating [] []
| alternating_cons u a p r msgs texts :
    role u = "user" -> role a = "assistant" ->
    typed_content (content u) = true ->
    Evaluation.extract_text (content u) = Ok (PyStr p) ->
    content a = PyStr r ->
    alternating msgs texts ->
    alternating (u :: a :: msgs) ((p, r) :: texts).

End Reference.

(** ** Further example inputs *)

Module Scenarios.
Import Py Models Clients Examples.

(** A platform on which every directory and every file can be written,
    contents nested up to 100 deep are encoded, and the times from 1970 on
    are formatted. *)
Definition writable : FileSystem :=
  {| makedirs_ok := fun _ => true;
     write_ok := fun _ => true;
     recursion_limit := 100;
     format_time_error := fun t =>
       if Qle_bool 0 t then None else Some OverflowError |}.

(** A clock that advances by one second at each reading, from 100. *)
Definition ticking (n : nat) : Q := inject_Z (100 + Z.of_nat n).

(** A backend that answers every request with the same text. *)
Definition answering (text : string) : Vendor :=
  {| client_ok := true; reply := fun _ => Ok (PyStr (lit text)) |}.

(** A backend whose requests fail. *)
Definition unreachable : Vendor :=
  {| client_ok := true; reply := fun _ => Raise OSError |}.

Definition turn_of (text : string) (backend : Vendor) : Turn :=
  {| prompt := lit text; image_url := None; vendor := backend;
     uuid := "id-7"; clock := ticking |}.

Definition greeting : Turn := turn_of "Hi" (answering "Hello").
Definition question : Turn :=
  turn_of "What is AI?" (answering "A field of study.").
Definition dropped : Turn := turn_of "And then?" unreachable.

(** An assistant message without content. *)
Definition unanswered : Message :=
  {| role := "assistant"; content := PyNone; timestamp := 2 |}.

Definition missing_content : list Message :=
  [text_message "user" "Hi" 1; unanswered].

(** The same contents under another role and without timestamps. *)
Definition unlabelled (msgs : list Message) : list Message :=
  map (fun m => {| role := "system"; content := content m; timestamp := 0 |})
    msgs.

(** A store that holds one conversation. *)
Definition stored : ConversationManager :=
  register "c1" (conversation_of two_turns) init.

Definition similes : str := lit "AI is like a brain. It learns! Does it?".

End Scenarios.

(** ** Properties of the conversation metrics *)

Section MetricsFacts.
Import Py Models Spec.

Lemma sum_fold_right (xs : list Q) (a : Q) :
  (fold_left Qplus xs a == a + fold_right Qplus 0 xs)%Q.
Proof.
  revert a. induction xs as [|x xs IH]; intros a; simpl.
  - lra.
  - rewrite IH. lra.
Qed.

Lemma response_step (msgs : list Message) (i : nat) (acc : list Q) :
  (1 <= i)%nat ->
  match msgs !! i, msgs !! (i - 1) with
  | Some cur, Some prev =>
      if is_assistant cur && is_user prev
      then acc ++ [(timestamp cur - timestamp prev)%Q]
      else acc
  | _, _ => acc
  end
  = if adjacent_pair msgs i then acc ++ [gap msgs i] else acc.
Proof.
  intros Hi. unfold adjacent_pair, gap, is_assistant, is_user.
  replace (1 <=? i)%nat with true by (symmetry; apply Nat.leb_le; lia).
  destruct (msgs !! i) as [cur|]; [|done].
  destruct (msgs !! (i - 1)) as [prev|]; done.
Qed.

Lemma response_times_filter (msgs : list Message) :
  response_times msgs
  = map (gap msgs)
      (filter (fun i => adjacent_pair msgs i = true) (seq 0 (length msgs))).
Proof.
  unfold response_times.
  assert (Hfold : forall l acc, Forall (fun i => 1 <= i)%nat l ->
    fold_left
      (fun acc i =>
         match msgs !! i, msgs !! (i - 1) with
         | Some cur, Some prev =>
             if is_assistant cur && is_user prev
             then acc ++ [(timestamp cur - timestamp prev)%Q]
             else acc
         | _, _ => acc
         end) l acc
    = acc ++ map (gap msgs) (filter (fun i => adjacent_pair msgs i = true) l)).
  { intros l acc Hl. revert acc.
    induction Hl as [|i l Hi _ IH]; intros acc; simpl.
    - by rewrite app_nil_r.
    - rewrite response_step by done. rewrite IH, filter_cons.
      destruct (adjacent_pair msgs i); simpl.
      + by rewrite <- app_assoc.
      + done. }
  rewrite Hfold.
  - simpl. destruct (length msgs) as [|n]; [done|].
    simpl. rewrite Nat.sub_0_r. rewrite filter_cons.
    rewrite decide_False; [done|]. by unfold adjacent_pair.
  - apply Forall_forall. intros i Hi. apply elem_of_seq in Hi. lia.
Qed.

Lemma avg_is_mean_of_times (msgs : list Message) :
  (_calculate_avg_response_time msgs == mean (response_times msgs))%Q.
Proof.
  unfold _calculate_avg_response_time.
  destruct (response_times msgs) as [|x xs]; [reflexivity|].
  unfold mean, sum, flen. rewrite sum_fold_right.
  apply Qmult_comp; [lra | reflexivity].
Qed.

Lemma no_pair_no_times (msgs : list Message) :
  (forall i, adjacent_pair msgs i = false) -> response_times msgs = [].
Proof.
  intros Hno. rewrite response_times_filter.
  induction (seq 0 (length msgs)) as [|i l IH]; [done|].
  rewrite filter_cons, decide_False; [done|]. by rewrite Hno.
Qed.

Lemma only_users_no_pair (msgs : list Message) (i : nat) :
  Forall (fun m => role m = "user") msgs -> adjacent_pair msgs i = false.
Proof.
  intros Hu. unfold adjacent_pair.
  destruct (msgs !! i) as [cur|] eqn:Ei; [|by rewrite andb_false_r].
  assert (Hr : role cur = "user").
  { eapply (proj1 (Forall_lookup _ _) Hu); eauto. }
  rewrite Hr. simpl. destruct (msgs !! (i - 1)); by rewrite andb_false_r.
Qed.

(** C4: the average assistant response time is the arithmetic mean, over
    the indices [i] where message [i] is an assistant message and message
    [i - 1] a user message, of the difference of their timestamps; it is 0
    when there is no such index, in particular when every message is a
    user message. *)
Theorem avg_response_time_is_mean_adjacent_gap (msgs : list Message) :
  (_calculate_avg_response_time msgs == mean_adjacent_gap msgs)%Q
  /\ ((forall i, adjacent_pair msgs i = false) ->
      _calculate_avg_response_time msgs = 0%Q)
  /\ (Forall (fun m => role m = "user") msgs ->
      _calculate_avg_response_time msgs = 0%Q).
Proof.
  assert (Hnone : (forall i, adjacent_pair msgs i = false) ->
                  _calculate_avg_response_time msgs = 0%Q).
  { intros Hno. unfold _calculate_avg_response_time.
    by rewrite no_pair_no_times. }
  split; [|split]; [|exact Hnone|].
  - unfold mean_adjacent_gap. rewrite <- response_times_filter.
    apply avg_is_mean_of_times.
  - intros Hu. apply Hnone. intros i. by apply only_users_no_pair.
Qed.

Lemma mapM_ok {A B} (f : A -> result B) (l : list A) :
  Forall (fun a => exists b, f a = Ok b) l -> exists bs, mapM f l = Ok bs.
Proof.
  induction 1 as [|a l [b Hb] _ [bs Hbs]]; simpl.
  - by eexists.
  - rewrite Hb. simpl. rewrite Hbs. simpl. by eexists.
Qed.

Lemma typed_part_length (item : pyval) :
  typed_part item = true -> exists z, text_part_length item = Ok z.
Proof.
  destruct item as [s|items|d|]; simpl; try discriminate.
  destruct (d !! "text") as [[s|items|d'|]|]; simpl; try discriminate;
    intros _; by eexists.
Qed.

Lemma typed_content_length (v : pyval) :
  typed_content v = true -> exists z, content_length v = Ok z.
Proof.
  destruct v as [s|items|d|]; simpl; try discriminate.
  - intros _. by eexists.
  - intros Hall. destruct (mapM_ok text_part_length items) as [ls Hls].
    + apply Forall_forall. intros item Hitem.
      apply typed_part_length.
      rewrite forallb_forall in Hall. apply Hall. by apply list_elem_of_In.
    + rewrite Hls. simpl. by eexists.
Qed.

Lemma typed_avg_response_length (msgs : list Message) :
  Forall (fun m => typed_content (content m) = true) msgs ->
  exists q, _calculate_avg_response_length msgs = Ok q.
Proof.
  intros Hall. unfold _calculate_avg_response_length.
  destruct (map content (filter (fun m => is_assistant m = true) msgs))
    as [|v vs] eqn:E; [by eexists|].
  destruct (mapM_ok content_length (v :: vs)) as [ls Hls].
  - rewrite <- E. apply Forall_forall. intros w Hw.
    apply list_elem_of_fmap in Hw as (m & -> & Hm).
    apply list_elem_of_filter in Hm as [_ Hm].
    apply typed_content_length.
    by apply (proj1 (Forall_forall _ _) Hall).
  - rewrite Hls. simpl. by eexists.
Qed.

Lemma num_turns_count (msgs : list Message) :
  length (filter (fun m => is_user m = true) msgs) = count_role "user" msgs.
Proof.
  induction msgs as [|m msgs IH]; [done|].
  rewrite filter_cons. simpl.
  case_decide as Hm; unfold is_user in Hm.
  - rewrite Hm. simpl. by rewrite IH.
  - apply not_true_is_false in Hm. by rewrite Hm.
Qed.

Lemma ended_after_metrics (now : Q) (c : Conversation) :
  exists e,
    end_time (if falsy_time (end_time c) then end_conversation now c else c)
    = Some e.
Proof.
  destruct (end_time c) as [e|] eqn:E; simpl.
  - destruct (Qeq_bool e 0); simpl; [by eexists|rewrite E; by eexists].
  - by eexists.
Qed.

(** C2: on a conversation whose contents have the declared type,
    [calculate_metrics] returns, stores the metrics it returns, and their
    [num_turns] is the number of messages whose role is user, whatever the
    order of the roles. *)
Theorem num_turns_counts_user_messages (c : Conversation) (now : Q) :
  Forall (fun m => typed_content (content m) = true) (messages c) ->
  exists m,
    (calculate_metrics now c).2 = Ok m
    /\ metrics (calculate_metrics now c).1 = Some m
    /\ messages (calculate_metrics now c).1 = messages c
    /\ num_turns m = count_role "user" (messages c).
Proof.
  intros Htyped. unfold calculate_metrics.
  destruct (ended_after_metrics now c) as [e He].
  set (c1 := if falsy_time (end_time c) then end_conversation now c else c)
    in *.
  assert (Hmsgs : messages c1 = messages c).
  { subst c1. by destruct (falsy_time (end_time c)). }
  rewrite He, Hmsgs.
  destruct (typed_avg_response_length (messages c) Htyped) as [q Hq].
  rewrite Hq. simpl. eexists. repeat split; try done.
  simpl. apply num_turns_count.
Qed.

Lemma truthy_nonzero (t : Q) : ~ (t == 0)%Q -> falsy_time (Some t) = false.
Proof.
  intros Ht. simpl. destruct (Qeq_bool t 0) eqn:E; [|done].
  apply Qeq_bool_iff in E. contradiction.
Qed.

(** On a conversation that has ended, the clock is not consulted. *)
Lemma calculate_metrics_ended (t e : Q) (c : Conversation) :
  end_time c = Some e -> falsy_time (Some e) = false ->
  calculate_metrics t c =
  match _calculate_avg_response_length (messages c) with
  | Raise x => (c, Raise x)
  | Ok avg_length =>
      let m :=
        {| total_duration := (e - start_time c)%Q;
           num_turns := length (filter (fun m => is_user m = true) (messages c));
           avg_assistant_response_time :=
             _calculate_avg_response_time (messages c);
           avg_assistant_response_length := avg_length |} in
      (set_metrics (Some m) c, Ok m)
  end.
Proof.
  intros He Hfalsy. unfold calculate_metrics. by rewrite He, Hfalsy, He.
Qed.

(** C3: [calculate_metrics] is idempotent. A second call, whatever the
    clock shows then, returns what the first call returned and leaves the
    conversation, metrics included, as the first call left it. The clock
    reading [t1] of the first call is a time after the epoch, hence not the
    falsy [0.0]. *)
Theorem calculate_metrics_idempotent (c : Conversation) (t1 t2 : Q) :
  ~ (t1 == 0)%Q ->
  calculate_metrics t2 (calculate_metrics t1 c).1 = calculate_metrics t1 c.
Proof.
  intros Ht1.
  assert (Hend : exists e,
    end_time (if falsy_time (end_time c) then end_conversation t1 c else c)
    = Some e /\ falsy_time (Some e) = false).
  { destruct (end_time c) as [e|] eqn:E; simpl.
    - destruct (Qeq_bool e 0) eqn:E0; simpl.
      + exists t1. split; [done|]. by apply truthy_nonzero.
      + exists e. rewrite E. split; [done|]. simpl. by rewrite E0.
    - exists t1. split; [done|]. by apply truthy_nonzero. }
  destruct Hend as (e & He & Hfalsy).
  unfold calculate_metrics at 2 3.
  set (c1 := if falsy_time (end_time c) then end_conversation t1 c else c)
    in *.
  rewrite He.
  destruct (_calculate_avg_response_length (messages c1)) as [q|x] eqn:Hq;
    simpl.
  - rewrite (calculate_metrics_ended t2 e) by done. simpl. by rewrite Hq.
  - rewrite (calculate_metrics_ended t2 e) by done. by rewrite Hq.
Qed.

End MetricsFacts.

(** ** Properties of the conversation store *)

Section StoreFacts.
Import Py Models Spec.

Lemma dict_get_set_eq {V} (k : string) (v : V) (d : list (string * V)) :
  dict_get k (dict_set k v d) = Some v.
Proof.
  induction d as [|[k' v'] d IH]; simpl.
  - by rewrite String.eqb_refl.
  - destruct (String.eqb k' k) eqn:E; simpl; by rewrite E.
Qed.

Lemma dict_get_set_ne {V} (k k' : string) (v : V) (d : list (string * V)) :
  k <> k' -> dict_get k' (dict_set k v d) = dict_get k' d.
Proof.
  intros Hne. induction d as [|[k0 v0] d IH]; simpl.
  - by rewrite (proj2 (String.eqb_neq k k')).
  - destruct (String.eqb k0 k) eqn:E; simpl; [|by rewrite IH].
    apply String.eqb_eq in E. subst k0.
    by rewrite (proj2 (String.eqb_neq k k')).
Qed.

Lemma dict_set_keeps_keys {V} (k k' : string) (v : V) (d : list (string * V)) :
  is_Some (dict_get k' d) -> is_Some (dict_get k' (dict_set k v d)).
Proof.
  intros Hk'. destruct (decide (k = k')) as [->|Hne].
  - rewrite dict_get_set_eq. by eexists.
  - by rewrite dict_get_set_ne.
Qed.

Lemma dict_set_keys_present {V} (k : string) (v v0 : V)
  (d : list (string * V)) :
  dict_get k d = Some v0 -> (dict_set k v d).*1 = d.*1.
Proof.
  induction d as [|[k' v'] d IH]; simpl; [done|].
  destruct (String.eqb k' k) eqn:E; [done|].
  intros Hget. rewrite !fmap_cons. f_equal. by apply IH.
Qed.

Lemma dict_get_keys {V} (k : string) (d : list (string * V)) :
  is_Some (dict_get k d) <-> k ∈ d.*1.
Proof.
  induction d as [|[k' v'] d IH]; simpl.
  - split; [by intros [? ?]|by intros ?%elem_of_nil].
  - destruct (String.eqb k' k) eqn:E.
    + apply String.eqb_eq in E. subst k'. split; [intros _; left|by eexists].
    + apply String.eqb_neq in E. rewrite IH, elem_of_cons.
      split; [by right|by intros [?|?]].
Qed.

(** C9: [ConversationManager.add_message] is total. For an identifier of
    the store it returns true and appends the message to that conversation;
    for any other identifier it returns false and the store is unchanged.
    In both cases the pointers, the keys and every other conversation are
    as before. *)
Theorem manager_add_message_soft_fails (conv_id : string) (message : Message)
  (st : ConversationManager) :
  let st' := (manager_add_message conv_id message st).1 in
  let found := (manager_add_message conv_id message st).2 in
  current_conversation_ids st' = current_conversation_ids st
  /\ (conversations st').*1 = (conversations st).*1
  /\ (forall other, other <> conv_id ->
        get_conversation other st' = get_conversation other st)
  /\ match get_conversation conv_id st with
     | Some c =>
         found = true
         /\ get_conversation conv_id st'
            = Some (set_messages (messages c ++ [message]) c)
     | None => found = false /\ st' = st
     end.
Proof.
  unfold manager_add_message, get_conversation.
  destruct (dict_get conv_id (conversations st)) as [c|] eqn:Hget; simpl.
  - repeat split.
    + by apply dict_set_keys_present with c.
    + intros other Hother. by apply dict_get_set_ne.
    + apply dict_get_set_eq.
  - done.
Qed.

Lemma save_each_keys (clock : nat -> Q) (fs : FileSystem) (directory : string)
  (tick : nat) (convs : list (string * Conversation)) :
  (save_each clock fs directory tick convs).1.*1 = convs.*1.
Proof.
  revert tick. induction convs as [|[k c] rest IH]; intros tick; [done|].
  simpl.
  destruct (falsy_time (end_time c));
    destruct (calculate_metrics _ _) as [c2 [m|e]]; try done;
    destruct (save_to_file fs directory c2); try done;
    match goal with
    | |- context [save_each clock fs directory ?t rest] =>
        specialize (IH t); destruct (save_each clock fs directory t rest)
    end; simpl in *; rewrite ?fmap_cons; simpl; by f_equal.
Qed.

Lemma summary_rows_keys (clock : nat -> Q) (fs : FileSystem) (tick : nat)
  (convs : list (string * Conversation)) :
  (summary_rows clock fs tick convs).1.*1 = convs.*1.
Proof.
  revert tick. induction convs as [|[k c] rest IH]; intros tick; [done|].
  cbn [summary_rows]. destruct (metrics c).
  - destruct (summary_row fs c); [|done].
    specialize (IH tick). destruct (summary_rows clock fs tick rest).
    simpl in *. rewrite ?fmap_cons; simpl; by f_equal.
  - destruct (calculate_metrics _ _) as [c1 r].
    destruct (_ <- r ;; summary_row fs c1); [|done].
    match goal with
    | |- context [summary_rows clock fs ?t rest] =>
        specialize (IH t); destruct (summary_rows clock fs t rest)
    end; simpl in *; rewrite ?fmap_cons; simpl; by f_equal.
Qed.

Lemma save_all_conversations_frame (clock : nat -> Q) (fs : FileSystem)
  (directory : string) (st : ConversationManager) :
  let st' := (save_all_conversations clock fs directory st).1 in
  current_conversation_ids st' = current_conversation_ids st
  /\ (conversations st').*1 = (conversations st).*1.
Proof.
  unfold save_all_conversations.
  destruct (makedirs_ok fs directory); simpl; [|done].
  pose proof (save_each_keys clock fs directory 0 (conversations st)) as Hk.
  destruct (save_each clock fs directory 0 (conversations st))
    as [convs [[files tick]|e]]; simpl in *; [|done].
  unfold _create_summary_csv. simpl.
  destruct (write_ok fs _); simpl; [|done].
  pose proof (summary_rows_keys clock fs (S tick) convs) as Hk'.
  destruct (summary_rows clock fs (S tick) convs) as [convs' r]. simpl in *.
  split; [done|]. by rewrite Hk'.
Qed.

(** A store with the same pointers and at least the same keys keeps the
    invariant. *)
Lemma store_invariant_frame (st st' : ConversationManager) :
  current_conversation_ids st' = current_conversation_ids st ->
  (forall k, is_Some (get_conversation k st) ->
             is_Some (get_conversation k st')) ->
  store_invariant st -> store_invariant st'.
Proof.
  intros Hcur Hkeys Hinv api conv_id Hptr.
  rewrite Hcur in Hptr. eauto.
Qed.

Lemma register_keeps_invariant (conv_id : string) (c : Conversation)
  (st : ConversationManager) :
  store_invariant st -> store_invariant (register conv_id c st).
Proof.
  apply store_invariant_frame; [done|].
  intros k. unfold get_conversation. simpl. apply dict_set_keeps_keys.
Qed.

Lemma set_current_keeps_invariant (api conv_id : string)
  (st : ConversationManager) :
  is_Some (get_conversation conv_id st) ->
  store_invariant st -> store_invariant (set_current api conv_id st).
Proof.
  intros Hreg Hinv api' conv_id' Hptr. simpl in Hptr.
  unfold get_conversation in *. simpl.
  destruct (decide (api = api')) as [->|Hne].
  - rewrite lookup_insert_eq in Hptr. by simplify_eq.
  - rewrite lookup_insert_ne in Hptr by done. by apply Hinv in Hptr.
Qed.

Lemma init_invariant : store_invariant init.
Proof.
  intros api conv_id Hptr. unfold init in Hptr. simpl in Hptr.
  repeat (apply lookup_insert_Some in Hptr as [[_ ?]|[_ Hptr]]; [done|]).
  by rewrite lookup_empty in Hptr.
Qed.

Lemma run_keeps_invariant (o : operation) (st : ConversationManager) :
  store_invariant st -> store_invariant (run o st).
Proof.
  intros Hinv. destruct o; simpl; try done.
  - apply set_current_keeps_invariant.
    + unfold get_conversation. simpl. rewrite dict_get_set_eq. by eexists.
    + by apply register_keeps_invariant.
  - unfold manager_add_message.
    destruct (dict_get conv_id (conversations st)); simpl; [|done].
    by apply register_keeps_invariant.
  - unfold manager_end_conversation.
    destruct (dict_get conv_id (conversations st)); simpl; [|done].
    by apply register_keeps_invariant.
  - destruct (get_conversation conv_id st); [|done].
    by apply register_keeps_invariant.
  - destruct (save_all_conversations_frame clock fs directory st)
      as [Hcur Hkeys].
    revert Hinv. apply store_invariant_frame; [done|].
    intros k. unfold get_conversation. rewrite !dict_get_keys.
    by rewrite Hkeys.
Qed.

(** C10: the store invariant holds in every reachable state, and every
    operation of the store preserves it. [start_conversation] first
    registers the new conversation, which keeps the pointers and the
    invariant, and then points the backend to it, so that the pointer it
    sets names a conversation of the store. *)
Theorem store_invariant_holds :
  (forall st, reachable st -> store_invariant st)
  /\ (forall o st, store_invariant st -> store_invariant (run o st))
  /\ (forall conv_id now api model_name st,
        let conversation :=
          {| id := conv_id; api_name := api; messages := [];
             model := model_name; start_time := now; end_time := None;
             metrics := None |} in
        let registered := register conv_id conversation st in
        let started := (start_conversation conv_id now api model_name st).1 in
        get_conversation conv_id registered = Some conversation
        /\ current_conversation_ids registered = current_conversation_ids st
        /\ (store_invariant st -> store_invariant registered)
        /\ started = set_current api conv_id registered
        /\ current_conversation_ids started !! api = Some (Some conv_id)
        /\ get_conversation conv_id started = Some conversation).
Proof.
  split; [|split].
  - induction 1 as [|o st _ IH]; [apply init_invariant|].
    by apply run_keeps_invariant.
  - apply run_keeps_invariant.
  - intros conv_id now api model_name st. simpl.
    unfold get_conversation. simpl. rewrite dict_get_set_eq.
    repeat split; try done.
    + apply register_keeps_invariant.
    + apply lookup_insert_eq.
Qed.

End StoreFacts.

(** ** Properties of the evaluator *)

Section EvaluatorFacts.
Import Py Models Evaluation Spec.
Context `{Builtins}.

Lemma fnat_nonneg (n : nat) : (0 <= fnat n)%Q.
Proof.
  unfold fnat. change 0%Q with (inject_Z 0). rewrite <- Zle_Qle. lia.
Qed.

Lemma at_least_one_pos (n : nat) : (0 < at_least_one n)%Q.
Proof.
  unfold at_least_one. change 0%Q with (inject_Z 0). rewrite <- Zlt_Qlt. lia.
Qed.

Lemma ratio_nonneg (a b : Q) : (0 <= a)%Q -> (0 < b)%Q -> (0 <= a / b)%Q.
Proof.
  intros Ha Hb. unfold Qdiv. apply Qmult_le_0_compat; [done|].
  apply Qlt_le_weak. by apply Qinv_lt_0_compat.
Qed.

Lemma clamp_range (lo s : Q) :
  (lo <= 1)%Q -> (lo <= Qmin 1 (Qmax lo s) <= 1)%Q.
Proof.
  intros Hlo. split.
  - apply Q.min_glb; [done|]. apply Q.le_max_l.
  - apply Q.le_min_l.
Qed.

Lemma min_nonneg (a b : Q) : (0 <= a)%Q -> (0 <= b)%Q -> (0 <= Qmin a b)%Q.
Proof. intros. by apply Q.min_glb. Qed.

Lemma count_in_nonneg (phrases : list str) (text : str) :
  (0 <= count_in phrases text)%Q.
Proof. apply fnat_nonneg. Qed.

Lemma relevance_range (prompt response : str) :
  (0 <= _evaluate_relevance prompt response <= 1)%Q.
Proof. apply clamp_range. lra. Qed.

Lemma accuracy_range (prompt response : str) :
  (0.5 <= _evaluate_accuracy prompt response <= 1)%Q.
Proof. apply clamp_range. lra. Qed.

Lemma creativity_range (response : str) :
  (0.5 <= _evaluate_creativity response <= 1)%Q.
Proof. apply clamp_range. lra. Qed.

Lemma completeness_range (prompt response : str) :
  (0.3 <= _evaluate_completeness prompt response <= 1)%Q.
Proof.
  unfold _evaluate_completeness. split; [|apply Q.le_min_l].
  apply Q.min_glb; [lra|].
  assert (0 <= Qmin 1 (flen response / 500))%Q.
  { apply min_nonneg; [lra|]. apply ratio_nonneg; [apply fnat_nonneg|lra]. }
  destruct (existsb _ _); lra.
Qed.

Lemma coherence_range (prompt response : str) (context : list (str * str)) :
  (0.8 <= _evaluate_coherence prompt response context <= 1)%Q.
Proof.
  unfold _evaluate_coherence. split; [|apply Q.le_min_l].
  apply Q.min_glb; [lra|].
  assert (0 <= Qmin 1 (flen (split_on (nl ++ nl) response) / 3))%Q.
  { apply min_nonneg; [lra|]. apply ratio_nonneg; [apply fnat_nonneg|lra]. }
  assert (0 <= Qmin 0.1 (count_in connectors (lower response) * 0.02))%Q.
  { apply min_nonneg; [lra|]. pose proof (count_in_nonneg connectors (lower response)). lra. }
  destruct context as [|turn context]; [lra|].
  match goal with
  | |- context [(?a / ?b * 0.1)%Q] =>
      assert (0 <= a / b)%Q
        by (apply ratio_nonneg; [apply fnat_nonneg|apply at_least_one_pos])
  end.
  lra.
Qed.

(** C1: [evaluate_response] returns the five dimension scores with the
    weights 0.25, 0.25, 0.20, 0.15 and 0.15, and a total that is their
    weighted sum; the total lies in [0, 1], relevance in [0, 1], accuracy
    and creativity in [0.5, 1], completeness and coherence are at most 1. *)
Theorem evaluate_response_weighted_total (prompt response : str)
  (context : list (str * str)) :
  let rel := _evaluate_relevance prompt response in
  let acc := _evaluate_accuracy prompt response in
  let comp := _evaluate_completeness prompt response in
  let coh := _evaluate_coherence prompt response context in
  let cre := _evaluate_creativity response in
  exists total,
    evaluate_response EVALUATION_DIMENSIONS prompt response context
    = Ok {| dimensions :=
              [("relevance", {| score := rel; weight := 0.25 |});
               ("accuracy", {| score := acc; weight := 0.25 |});
               ("completeness", {| score := comp; weight := 0.20 |});
               ("coherence", {| score := coh; weight := 0.15 |});
               ("creativity", {| score := cre; weight := 0.15 |})];
            total_score := total |}
    /\ (total == 0.25 * rel + 0.25 * acc + 0.20 * comp + 0.15 * coh
                 + 0.15 * cre)%Q
    /\ (0 <= total <= 1)%Q
    /\ (0 <= rel <= 1)%Q /\ (0.5 <= acc <= 1)%Q /\ (comp <= 1)%Q
    /\ (coh <= 1)%Q /\ (0.5 <= cre <= 1)%Q.
Proof.
  intros rel acc comp coh cre.
  pose proof (relevance_range prompt response) as Hrel.
  pose proof (accuracy_range prompt response) as Hacc.
  pose proof (completeness_range prompt response) as Hcomp.
  pose proof (coherence_range prompt response context) as Hcoh.
  pose proof (creativity_range response) as Hcre.
  fold rel in Hrel. fold acc in Hacc. fold comp in Hcomp. fold coh in Hcoh.
  fold cre in Hcre.
  eexists. split; [reflexivity|].
  fold rel acc comp coh cre.
  split; [ring|]. split; [|repeat split; lra].
  split; lra.
Qed.
End EvaluatorFacts.

Section ConversationFacts.
Import Py Models Evaluation Spec.
Context `{Builtins}.

(** C6: a conversation of zero or one message has no complete pair, and
    [evaluate_conversation] returns the error marker instead of scores. *)
Theorem evaluate_conversation_no_valid_turns (dims : list (string * Q))
  (messages : list Message) :
  (length messages <= 1)%nat ->
  evaluate_conversation dims messages
  = Ok (EvaluationError "No valid turns to evaluate").
Proof.
  intros Hlen. destruct messages as [|m [|m' rest]]; [done|done|].
  simpl in Hlen. lia.
Qed.

Lemma evaluate_turns_app (dims : list (string * Q)) (msgs : list Message)
  (l1 l2 : list nat) (state : list ResponseEvaluation * list (str * str)) :
  evaluate_turns dims msgs state (l1 ++ l2)
  = (state' <- evaluate_turns dims msgs state l1 ;;
     evaluate_turns dims msgs state' l2).
Proof.
  revert state. induction l1 as [|i l1 IH]; intros state; simpl; [done|].
  destruct (evaluate_turn dims msgs state i) as [state'|e]; simpl; [|done].
  apply IH.
Qed.

Lemma omap_total {A B} (f : A -> option B) (l : list A) :
  Forall (fun a => is_Some (f a)) l ->
  length (omap f l) = length l
  /\ forall i b, omap f l !! i = Some b ->
       exists a, l !! i = Some a /\ f a = Some b.
Proof.
  induction 1 as [|a l [b Hb] _ [IHlen IH]]; csimpl.
  - split; [done|]. intros i b Hi. by rewrite lookup_nil in Hi.
  - rewrite Hb. csimpl. split; [by rewrite IHlen|].
    intros [|i] b' Hi; simpl in *.
    + exists a. split; [done|]. congruence.
    + by apply IH.
Qed.

Lemma turns_spec (msgs : list Message) :
  length (turns msgs) = (length msgs / 2)%nat
  /\ forall k m m', turns msgs !! k = Some (m, m') ->
       msgs !! (2 * k)%nat = Some m /\ msgs !! (2 * k + 1)%nat = Some m'.
Proof.
  destruct (omap_total
    (fun k =>
       match msgs !! (2 * k)%nat, msgs !! (2 * k + 1)%nat with
       | Some m, Some m' => Some (m, m')
       | _, _ => None
       end) (seq 0 (length msgs / 2))) as [Hlen Hget].
  - apply Forall_forall. intros k Hk. apply elem_of_seq in Hk.
    assert (Hdiv : (2 * (length msgs / 2) <= length msgs)%nat)
      by apply Nat.Div0.mul_div_le.
    destruct (lookup_lt_is_Some_2 msgs (2 * k)) as [m Hm]; [lia|].
    destruct (lookup_lt_is_Some_2 msgs (2 * k + 1)) as [m' Hm']; [lia|].
    rewrite Hm, Hm'. by eexists.
  - unfold turns. split; [by rewrite Hlen, length_seq|].
    intros k m m' Hk. apply Hget in Hk as (k' & Hk' & Hf).
    apply lookup_seq in Hk' as [-> _]. rewrite Nat.add_0_l in Hf.
    destruct (msgs !! (2 * k)%nat) as [m0|]; [|done].
    destruct (msgs !! (2 * k + 1)%nat) as [m1|]; [|done].
    by simplify_eq.
Qed.

Lemma evaluate_turns_score_turns (dims : list (string * Q))
  (msgs : list Message) (texts : list (str * str)) :
  forall (j : nat) (scores : list ResponseEvaluation) (ctx : list (str * str)),
    (forall k t, texts !! k = Some t ->
       exists m m',
         msgs !! (2 * (j + k))%nat = Some m
         /\ msgs !! (2 * (j + k) + 1)%nat = Some m'
         /\ turn_texts (m, m') t) ->
    evaluate_turns dims msgs (scores, ctx)
      (map (fun k => 2 * k)%nat (seq j (length texts)))
    = (ss <- score_turns dims ctx texts ;;
       Ok (scores ++ ss, ctx ++ texts)).
Proof.
  induction texts as [|[p r] texts IH]; intros j scores ctx Hturns; simpl.
  - by rewrite !app_nil_r.
  - destruct (Hturns 0%nat (p, r) eq_refl) as (m & m' & Hm & Hm' & Hp & Hr).
    rewrite Nat.add_0_r in Hm, Hm'. simpl in Hp, Hr.
    replace (j + (j + 0))%nat with (2 * j)%nat by lia.
    assert (Hlt : (2 * j + 1 <? length msgs)%nat = true).
    { apply Nat.ltb_lt. by eapply lookup_lt_Some. }
    rewrite Hlt, Hm, Hm', Hp, Hr. simpl.
    destruct (evaluate_response dims p r ctx) as [s|e]; simpl; [|done].
    rewrite (IH (S j)).
    + destruct (score_turns dims (ctx ++ [(p, r)]) texts) as [ss|e]; simpl;
        [|done].
      by rewrite <- !app_assoc.
    + intros k t Ht.
      destruct (Hturns (S k) t Ht) as (m1 & m1' & H1 & H1' & Ht1).
      exists m1, m1'. repeat split; try apply Ht1.
      * by replace (2 * (S j + k))%nat with (2 * (j + S k))%nat by lia.
      * by replace (2 * (S j + k) + 1)%nat with (2 * (j + S k) + 1)%nat by lia.
Qed.

Lemma range_by_two_split (n : nat) :
  range_by_two n
  = map (fun k => 2 * k)%nat (seq 0 (n / 2))
    ++ (if Nat.even n then [] else [2 * (n / 2)]%nat).
Proof.
  unfold range_by_two. rewrite Nat.div2_div.
  pose proof (Nat.div_mod_eq n 2) as Hn.
  pose proof (Nat.mod_upper_bound n 2 ltac:(lia)) as Hr.
  destruct (Nat.even n) eqn:Heven.
  - apply Nat.even_spec in Heven as [h ->].
    replace (2 * h)%nat with (h * 2)%nat by lia.
    rewrite Nat.div_add_l, Nat.div_mul by lia. simpl.
    by rewrite Nat.add_0_r, app_nil_r.
  - assert (Hodd : Nat.odd n = true) by (by rewrite <- Nat.negb_even, Heven).
    apply Nat.odd_spec in Hodd as [h ->].
    replace (2 * h + 1 + 1)%nat with ((h + 1) * 2)%nat by lia.
    rewrite Nat.div_mul by lia.
    replace (2 * h + 1)%nat with (h * 2 + 1)%nat by lia.
    rewrite Nat.div_add_l by lia. simpl. rewrite Nat.add_0_r.
    replace (h + 1)%nat with (S h) by lia.
    by rewrite seq_S, map_app.
Qed.

Lemma trailing_message_skipped (dims : list (string * Q))
  (msgs : list Message) (state : list ResponseEvaluation * list (str * str)) :
  Nat.even (length msgs) = false ->
  evaluate_turn dims msgs state (2 * (length msgs / 2))%nat = Ok state.
Proof.
  intros Heven. unfold evaluate_turn. destruct state as [scores ctx].
  assert (Hodd : Nat.odd (length msgs) = true)
    by (by rewrite <- Nat.negb_even, Heven).
  apply Nat.odd_spec in Hodd as [h Hh].
  replace (2 * (length msgs / 2) + 1 <? length msgs)%nat with false; [done|].
  symmetry. apply Nat.ltb_ge. rewrite Hh.
  replace (2 * h + 1)%nat with (h * 2 + 1)%nat by lia.
  rewrite Nat.div_add_l by lia. simpl. lia.
Qed.

(** Under the default dimensions no lookup of a weight fails. *)
Lemma evaluate_response_default (prompt response : str)
  (context : list (str * str)) :
  exists rel acc comp coh cre total,
    evaluate_response EVALUATION_DIMENSIONS prompt response context
    = Ok {| dimensions :=
              [("relevance", rel); ("accuracy", acc); ("completeness", comp);
               ("coherence", coh); ("creativity", cre)];
            total_score := total |}.
Proof. by repeat eexists. Qed.

Lemma score_turns_default (context texts : list (str * str)) :
  exists ss,
    score_turns EVALUATION_DIMENSIONS context texts = Ok ss
    /\ length ss = length texts
    /\ Forall default_dimensions ss.
Proof.
  revert context. induction texts as [|[p r] texts IH]; intros context.
  - exists []. by repeat split.
  - destruct (evaluate_response_default p r context)
      as (rel & acc & comp & coh & cre & total & Hs).
    destruct (IH (context ++ [(p, r)])) as (ss & Hss & Hlen & Hall).
    eexists. cbn [score_turns]. rewrite Hs. cbn [bind]. rewrite Hss.
    cbn [bind]. split; [done|]. split; [simpl; by rewrite Hlen|].
    constructor; [|done]. by repeat eexists.
Qed.

Lemma average_dimensions_default (scores : list ResponseEvaluation) :
  Forall default_dimensions scores ->
  exists avgs,
    mapM (fun '(dim, _) => average_dimension scores dim)
      EVALUATION_DIMENSIONS = Ok avgs.
Proof.
  intros Hall. apply mapM_ok. unfold EVALUATION_DIMENSIONS.
  repeat constructor; unfold average_dimension;
    match goal with
    | |- context [mapM ?f scores] =>
        destruct (mapM_ok f scores) as [xs Hxs];
        [| rewrite Hxs; by eexists]
    end;
    (eapply Forall_impl; [exact Hall|]);
    intros s (rel & acc & comp & coh & cre & ->); by eexists.
Qed.

(** The turns of a conversation of [n] messages pair message [2k] with
    message [2k + 1] and there are [n / 2] of them, rounded down. When
    every turn has a prompt that yields a text and a response that is a
    text, [evaluate_conversation] returns, and the scores it reports are
    those of exactly these turns, each scored in order against the turns
    before it: a trailing unmatched message is not scored. A response that
    is no text is the case of [structured_reply_turn_not_scored] below. *)
Theorem evaluate_conversation_scores_each_turn (msgs : list Message)
  (texts : list (str * str)) :
  Forall2 turn_texts (turns msgs) texts ->
  exists ev,
    evaluate_conversation EVALUATION_DIMENSIONS msgs = Ok ev
    /\ length (turn_scores_of ev) = (length msgs / 2)%nat
    /\ score_turns EVALUATION_DIMENSIONS [] texts = Ok (turn_scores_of ev)
    /\ length (turns msgs) = (length msgs / 2)%nat
    /\ (forall k m m', turns msgs !! k = Some (m, m') ->
          msgs !! (2 * k)%nat = Some m /\ msgs !! (2 * k + 1)%nat = Some m').
Proof.
  intros Htexts. destruct (turns_spec msgs) as [Hlen Hidx].
  assert (Hlen' : length texts = (length msgs / 2)%nat).
  { by rewrite <- (Forall2_length _ _ _ Htexts). }
  destruct (score_turns_default [] texts) as (ss & Hss & Hsslen & Hall).
  assert (Hloop : evaluate_turns EVALUATION_DIMENSIONS msgs ([], [])
                    (range_by_two (length msgs)) = Ok (ss, texts)).
  { rewrite range_by_two_split, evaluate_turns_app, <- Hlen'.
    rewrite (evaluate_turns_score_turns _ _ _ 0%nat).
    - rewrite Hss. cbn [bind app]. rewrite Hlen'.
      destruct (Nat.even (length msgs)) eqn:Heven; [done|].
      cbn [evaluate_turns]. by rewrite trailing_message_skipped.
    - intros k t Ht.
      destruct (Forall2_lookup_r _ _ _ _ _ Htexts Ht) as ([m m'] & Hk & Hturn).
      destruct (Hidx _ _ _ Hk) as [Hm Hm']. by exists m, m'. }
  unfold evaluate_conversation. rewrite Hloop. cbn [bind fst].
  destruct ss as [|s ss].
  - eexists. split; [done|]. cbn [turn_scores_of].
    split; [by rewrite <- Hlen', <- Hsslen|].
    split; [exact Hss|]. split; [exact Hlen|exact Hidx].
  - destruct (average_dimensions_default (s :: ss) Hall) as [avgs Havgs].
    rewrite Havgs. cbn [bind]. eexists. split; [done|]. cbn [turn_scores_of].
    split; [by rewrite <- Hlen', <- Hsslen|].
    split; [exact Hss|]. split; [exact Hlen|exact Hidx].
Qed.
End ConversationFacts.

Section RelevanceFacts.
Import Py Models Evaluation Spec.
Context `{Builtins}.

Lemma fnat_le (a b : nat) : (a <= b)%nat -> (fnat a <= fnat b)%Q.
Proof. intros Hab. unfold fnat. rewrite <- Zle_Qle. lia. Qed.

Lemma at_least_one_ge (n : nat) : (fnat n <= at_least_one n)%Q.
Proof. unfold fnat, at_least_one. rewrite <- Zle_Qle. lia. Qed.

Lemma min_one_unit (x : Q) : (0 <= x)%Q -> (0 <= Qmin 1 x <= 1)%Q.
Proof.
  intros Hx. split; [apply Q.min_glb; [lra|done]|apply Q.le_min_l].
Qed.

Lemma keyword_overlap_unit (prompt response : str) :
  (0 <= keyword_overlap prompt response <= 1)%Q.
Proof.
  unfold keyword_overlap. split.
  - apply ratio_nonneg; [apply fnat_nonneg|apply at_least_one_pos].
  - apply Qle_shift_div_r; [apply at_least_one_pos|].
    rewrite Qmult_1_l.
    eapply Qle_trans; [|apply at_least_one_ge].
    apply fnat_le, subseteq_size, intersection_subseteq_l.
Qed.

Lemma short_factor (response : str) :
  (0 <= Qmin 1 (flen response / 1000) <= 1)%Q.
Proof.
  apply min_one_unit, ratio_nonneg; [apply fnat_nonneg|lra].
Qed.

Lemma long_factor (response : str) :
  (0 <= Qmin 1 (5000 / at_least_one (length response)) <= 1)%Q.
Proof.
  apply min_one_unit, ratio_nonneg; [lra|apply at_least_one_pos].
Qed.

Lemma length_factor_unit (response : str) :
  (0 <= length_factor response <= 1)%Q.
Proof.
  unfold length_factor.
  pose proof (short_factor response). pose proof (long_factor response).
  nra.
Qed.

Lemma length_factor_penalty (response : str) :
  (length response < 1000 \/ 5000 < length response)%nat ->
  (length_factor response < 1)%Q.
Proof.
  unfold length_factor.
  pose proof (short_factor response) as Hs.
  pose proof (long_factor response) as Hl.
  intros [Hshort|Hlong].
  - assert (Qmin 1 (flen response / 1000) < 1)%Q; [|nra].
    eapply Qle_lt_trans; [apply Q.le_min_r|].
    apply Qlt_shift_div_r; [lra|].
    unfold flen, fnat. change (1 * 1000)%Q with (inject_Z 1000).
    rewrite <- Zlt_Qlt. lia.
  - assert (Qmin 1 (5000 / at_least_one (length response)) < 1)%Q; [|nra].
    eapply Qle_lt_trans; [apply Q.le_min_r|].
    apply Qlt_shift_div_r; [apply at_least_one_pos|].
    rewrite Qmult_1_l. unfold at_least_one. change 5000%Q with (inject_Z 5000).
    rewrite <- Zlt_Qlt. lia.
Qed.

Lemma length_factor_full (response : str) :
  (1000 <= length response <= 5000)%nat ->
  (length_factor response == 1)%Q.
Proof.
  intros [Hlo Hhi]. unfold length_factor.
  rewrite !Q.min_l; [lra| |].
  - apply Qle_shift_div_l; [apply at_least_one_pos|].
    rewrite Qmult_1_l. unfold at_least_one. change 5000%Q with (inject_Z 5000).
    rewrite <- Zle_Qle. lia.
  - apply Qle_shift_div_l; [lra|].
    unfold flen, fnat. change (1 * 1000)%Q with (inject_Z 1000).
    rewrite <- Zle_Qle. lia.
Qed.

Lemma relevance_unclamped (prompt response : str) :
  (_evaluate_relevance prompt response
   == 0.7 + 0.3 * keyword_overlap prompt response * length_factor response)%Q.
Proof.
  unfold _evaluate_relevance.
  pose proof (keyword_overlap_unit prompt response).
  pose proof (length_factor_unit response).
  rewrite Q.max_r by nra. rewrite Q.min_r by nra. reflexivity.
Qed.

(** C7, amended: the relevance score is 0.7 plus 0.3 times the overlap
    ratio (distinct prompt tokens that are response tokens, over the
    distinct prompt tokens, at least one) times the length factor
    [min(1, len/1000) * min(1, 5000/max(1, len))]. The factor is below 1 for
    a response shorter than 1000 or longer than 5000 characters and 1 in
    between; the score needs no clamping and lies in [0.7, 1]; without a
    shared token it is 0.7. *)
Theorem relevance_score_formula (prompt response : str) :
  let overlap := keyword_overlap prompt response in
  let factor := length_factor response in
  overlap
  = (fnat (size (word_set prompt ∩ word_set response))
     / fnat (Nat.max 1 (size (word_set prompt))))%Q
  /\ factor
     = (Qmin 1 (fnat (length response) / 1000)
        * Qmin 1 (5000 / fnat (Nat.max 1 (length response))))%Q
  /\ (0 <= overlap <= 1)%Q
  /\ (0 <= factor <= 1)%Q
  /\ ((length response < 1000 \/ 5000 < length response)%nat ->
      (factor < 1)%Q)
  /\ ((1000 <= length response <= 5000)%nat -> (factor == 1)%Q)
  /\ (_evaluate_relevance prompt response == 0.7 + 0.3 * overlap * factor)%Q
  /\ (0 <= _evaluate_relevance prompt response <= 1)%Q
  /\ (word_set prompt ## word_set response ->
      (_evaluate_relevance prompt response == 0.7)%Q).
Proof.
  intros overlap factor.
  assert (Hmax : forall n, at_least_one n = fnat (Nat.max 1 n)).
  { intros n. unfold at_least_one, fnat. f_equal. lia. }
  split; [|split].
  { unfold overlap, keyword_overlap. by rewrite Hmax. }
  { unfold factor, length_factor. by rewrite Hmax. }
  split; [apply keyword_overlap_unit|].
  split; [apply length_factor_unit|].
  split; [apply length_factor_penalty|].
  split; [apply length_factor_full|].
  split; [apply relevance_unclamped|].
  split; [apply relevance_range|].
  intros Hdisj. rewrite relevance_unclamped.
  unfold keyword_overlap.
  rewrite (proj1 (disjoint_intersection_L _ _) Hdisj), size_empty.
  change (fnat 0) with 0%Q. unfold Qdiv. ring.
Qed.
End RelevanceFacts.

(** ** The model on the example inputs *)

Section ExampleFacts.
Import Py Models Evaluation Spec Examples.

(** C7, as stated, fails: a response of 500 characters that contains the
    whole prompt is scored 0.85, where a factor that spares responses of 200
    to 5000 characters gives 1. *)
Lemma relevance_penalizes_500_characters :
  (200 <= length response_500 <= 5000)%nat
  /\ (@keyword_overlap example_builtins prompt_ai response_500 == 1)%Q
  /\ (length_factor response_500 == 0.5)%Q
  /\ (@_evaluate_relevance example_builtins prompt_ai response_500 == 0.85)%Q
  /\ ~ @relevance_as_claimed example_builtins.
Proof.
  assert (Hlen : length response_500 = 500%nat) by reflexivity.
  assert (Hov : (@keyword_overlap example_builtins prompt_ai response_500 == 1)%Q)
    by (vm_compute; reflexivity).
  assert (Hrel : (@_evaluate_relevance example_builtins prompt_ai response_500
                  == 0.85)%Q) by (vm_compute; reflexivity).
  split; [rewrite Hlen; lia|]. split; [exact Hov|].
  split; [vm_compute; reflexivity|]. split; [exact Hrel|].
  intros Hclaim.
  specialize (Hclaim prompt_ai response_500 ltac:(rewrite Hlen; lia)).
  rewrite Hrel, Hov in Hclaim. vm_compute in Hclaim. discriminate.
Qed.

(** C8: the text of a structured prompt is extracted, so that the
    conversation is scored like the one with the plain prompt; a structured
    response is passed on as it is, and scoring it raises. *)
Theorem structured_response_not_extracted `{Builtins} :
  extract_text (text_and_image "Describe this")
  = Ok (PyStr (lit "Describe this"))
  /\ evaluate_conversation EVALUATION_DIMENSIONS structured_prompt
     = evaluate_conversation EVALUATION_DIMENSIONS plain_prompt
  /\ (exists scores avg avgs,
        evaluate_conversation EVALUATION_DIMENSIONS plain_prompt
        = Ok (Evaluated scores avg avgs) /\ length scores = 1%nat)
  /\ evaluate_conversation EVALUATION_DIMENSIONS structured_response
     = Raise AttributeError.
Proof.
  split; [|split; [|split]].
  - vm_compute. reflexivity.
  - reflexivity.
  - repeat eexists.
  - reflexivity.
Qed.

(** C5: the conversation [structured_response] has two messages of the
    declared content type, hence one turn: the prompt at index 0 with the
    reply, made of one text part, at index 1. [evaluate_conversation]
    raises on it, so that none of the floor(2/2) = 1 turns is scored; with
    the same reply given as a plain string, the turn is scored. *)
Theorem structured_reply_turn_not_scored `{Builtins} :
  length structured_response = 2%nat
  /\ Forall (fun m => typed_content (content m) = true) structured_response
  /\ length (turns structured_response) = 1%nat
  /\ evaluate_conversation EVALUATION_DIMENSIONS structured_response
     = Raise AttributeError
  /\ ~ (exists ev,
          evaluate_conversation EVALUATION_DIMENSIONS structured_response
          = Ok ev
          /\ length (turn_scores_of ev)
             = (length structured_response / 2)%nat)
  /\ (exists ev,
        evaluate_conversation EVALUATION_DIMENSIONS plain_prompt = Ok ev
        /\ length (turn_scores_of ev) = (length plain_prompt / 2)%nat).
Proof.
  assert (Hraise : evaluate_conversation EVALUATION_DIMENSIONS
                     structured_response = Raise AttributeError)
    by reflexivity.
  split; [reflexivity|]. split; [by repeat constructor|].
  split; [reflexivity|]. split; [exact Hraise|]. split.
  - intros (ev & Hev & _). rewrite Hraise in Hev. discriminate Hev.
  - eexists. split; reflexivity.
Qed.

(** The session of the specification reports two turns. *)
Example openai_session_has_two_turns :
  exists c m,
    get_conversation "id-1" openai_session = Some c
    /\ (calculate_metrics 107 c).2 = Ok m
    /\ num_turns m = 2%nat
    /\ (total_duration m == 6)%Q
    /\ (avg_assistant_response_time m == 3 # 2)%Q.
Proof.
  eexists _, _. split; [vm_compute; reflexivity|].
  split; [vm_compute; reflexivity|]. by vm_compute.
Qed.

Lemma num_turns_of_two_turns :
  exists m,
    (calculate_metrics 130 (conversation_of two_turns)).2 = Ok m
    /\ metrics (calculate_metrics 130 (conversation_of two_turns)).1 = Some m
    /\ messages (calculate_metrics 130 (conversation_of two_turns)).1
       = two_turns
    /\ num_turns m = 3%nat.
Proof.
  apply (num_turns_counts_user_messages (conversation_of two_turns) 130).
  repeat constructor.
Defined.

Lemma metrics_of_two_turns_recomputed :
  calculate_metrics 200 (calculate_metrics 130 (conversation_of two_turns)).1
  = calculate_metrics 130 (conversation_of two_turns).
Proof.
  apply (calculate_metrics_idempotent (conversation_of two_turns) 130 200).
  intros Hzero. discriminate Hzero.
Defined.

Lemma two_turns_evaluated :
  exists ev,
    @evaluate_conversation example_builtins EVALUATION_DIMENSIONS two_turns
    = Ok ev
    /\ length (turn_scores_of ev) = (length two_turns / 2)%nat
    /\ @score_turns example_builtins EVALUATION_DIMENSIONS [] two_turns_texts
       = Ok (turn_scores_of ev)
    /\ length (turns two_turns) = (length two_turns / 2)%nat
    /\ (forall k m m', turns two_turns !! k = Some (m, m') ->
          two_turns !! (2 * k)%nat = Some m
          /\ two_turns !! (2 * k + 1)%nat = Some m').
Proof.
  apply (@evaluate_conversation_scores_each_turn example_builtins two_turns
           two_turns_texts).
  vm_compute. repeat constructor.
Defined.

Lemma one_message_not_evaluated :
  @evaluate_conversation example_builtins EVALUATION_DIMENSIONS one_message
  = Ok (EvaluationError "No valid turns to evaluate").
Proof.
  apply (@evaluate_conversation_no_valid_turns example_builtins
           EVALUATION_DIMENSIONS one_message).
  simpl. lia.
Defined.

End ExampleFacts.

(** ** Further properties of the conversation metrics *)

Section ResponseLengthFacts.
Import Py Models Spec Reference.

Lemma fold_add_right (zs : list Z) (a : Z) :
  fold_left Z.add zs a = (a + fold_right Z.add 0 zs)%Z.
Proof.
  revert a. induction zs as [|z zs IH]; intros a; simpl; [lia|].
  rewrite IH. lia.
Qed.

Lemma inject_fold_right (zs : list Z) :
  (inject_Z (fold_right Z.add 0%Z zs)
   == fold_right Qplus 0 (map inject_Z zs))%Q.
Proof.
  induction zs as [|z zs IH]; [reflexivity|].
  cbn [map fold_right]. rewrite inject_Z_plus. rewrite IH. reflexivity.
Qed.

Lemma mapM_map {A B} (f : A -> result B) (g : A -> B) (l : list A) :
  Forall (fun a => f a = Ok (g a)) l -> mapM f l = Ok (map g l).
Proof.
  induction 1 as [|a l Ha _ IH]; simpl; [done|]. by rewrite Ha, IH.
Qed.

Lemma typed_part_text_length (item : pyval) :
  typed_part item = true ->
  text_part_length item
  = Ok match item with
       | PyDict d =>
           match d !! "text" with
           | Some (PyStr s) => Z.of_nat (length s)
           | _ => 0%Z
           end
       | _ => 0%Z
       end.
Proof.
  destruct item as [s|items|d|]; simpl; try discriminate.
  by destruct (d !! "text") as [[s|items|d'|]|].
Qed.

Lemma typed_content_text_length (v : pyval) :
  typed_content v = true -> content_length v = Ok (text_length v).
Proof.
  destruct v as [s|items|d|]; simpl; try discriminate; [done|].
  intros Hall. rewrite (mapM_map _ _ items
    (proj2 (Forall_forall _ _)
       (fun item Hitem =>
          typed_part_text_length item
            (proj1 (forallb_forall _ _) Hall item
               (proj1 (list_elem_of_In _ _) Hitem))))).
  simpl. by rewrite fold_add_right.
Qed.

Lemma is_assistant_role (m : Message) :
  is_assistant m = true <-> role m = "assistant".
Proof. apply String.eqb_eq. Qed.

Lemma assistant_filter (msgs : list Message) :
  filter (fun m => is_assistant m = true) msgs = assistant_messages msgs.
Proof.
  unfold assistant_messages. apply list_filter_iff. intros m.
  apply is_assistant_role.
Qed.

(** X1: when every content has its declared type,
    [_calculate_avg_response_length] returns the mean, over the assistant
    messages, of the text length of the content (the characters of a
    string, or of the string text parts of a list), and 0 when there is no
    assistant message. *)
Theorem avg_response_length_is_mean_text_length (msgs : list Message) :
  Forall (fun m => typed_content (content m) = true) msgs ->
  exists q,
    _calculate_avg_response_length msgs = Ok q
    /\ (q == mean (map (fun m => inject_Z (text_length (content m)))
                   (assistant_messages msgs)))%Q
    /\ (assistant_messages msgs = [] -> q = 0%Q).
Proof.
  intros Htyped. unfold _calculate_avg_response_length.
  rewrite assistant_filter.
  assert (Hall : Forall (fun m => typed_content (content m) = true)
                   (assistant_messages msgs)).
  { apply Forall_forall. intros m Hm.
    apply list_elem_of_filter in Hm as [_ Hm].
    by apply (proj1 (Forall_forall _ _) Htyped). }
  destruct (assistant_messages msgs) as [|m ms]; [by eexists|].
  set (l := m :: ms) in *.
  assert (Hlen : mapM content_length (map content l)
                 = Ok (map text_length (map content l))).
  { apply mapM_map, Forall_fmap. eapply Forall_impl; [exact Hall|].
    intros m'. apply typed_content_text_length. }
  change (map content (m :: ms)) with (map content l).
  rewrite Hlen. simpl. eexists. split; [done|]. split; [|done].
  unfold mean, flen. subst l. cbn [map]. apply Qmult_comp.
  - rewrite fold_add_right, Z.add_0_l.
    rewrite inject_Z_plus, inject_fold_right, !map_map. reflexivity.
  - cbn [length]. rewrite !length_map. reflexivity.
Qed.
End ResponseLengthFacts.

Section EndedConversationFacts.
Import Py Models Spec Reference.

Lemma mapM_raise {A B} (f : A -> result B) (l : list A) (e : exn) :
  (forall a e', f a = Raise e' -> e' = e) ->
  Exists (fun a => f a = Raise e) l -> mapM f l = Raise e.
Proof.
  intros Honly. induction 1 as [a l Ha|a l _ IH]; simpl.
  - by rewrite Ha.
  - destruct (f a) as [b|e'] eqn:Hfa; simpl.
    + by rewrite IH.
    + by rewrite (Honly a e' Hfa).
Qed.

Lemma content_length_raises (v : pyval) (e : exn) :
  content_length v = Raise e -> e = TypeError.
Proof.
  destruct v as [s|items|d|]; simpl; try discriminate; [|congruence].
  destruct (mapM text_part_length items) as [ls|e'] eqn:Hm; simpl;
    [discriminate|].
  intros [= <-]. clear -Hm.
  induction items as [|item items IH]; simpl in Hm; [discriminate|].
  destruct (text_part_length item) as [z|e0] eqn:Hitem; simpl in Hm.
  - destruct (mapM text_part_length items); simpl in Hm; [discriminate|].
    apply IH. congruence.
  - injection Hm as <-. destruct item as [s|its|d|]; simpl in Hitem;
      try discriminate.
    destruct (d !! "text") as [[s|its|d'|]|]; simpl in Hitem; congruence.
Qed.

(** X2: [calculate_metrics] always leaves the conversation ended: an end
    time that is set and not 0.0 is kept, otherwise the clock reading is
    taken. Messages, identifier, backend, model and start time are
    unchanged. The metrics returned are the metrics stored; the only
    exception raised is [TypeError], and then the stored metrics are the
    old ones. *)
Theorem calculate_metrics_ends_conversation (now : Q) (c : Conversation) :
  let c' := (calculate_metrics now c).1 in
  end_time c'
  = Some match end_time c with
         | Some e => if Qeq_bool e 0 then now else e
         | None => now
         end
  /\ messages c' = messages c
  /\ id c' = id c /\ api_name c' = api_name c /\ model c' = model c
  /\ start_time c' = start_time c
  /\ match (calculate_metrics now c).2 with
     | Ok m => metrics c' = Some m
     | Raise e => e = TypeError /\ metrics c' = metrics c
     end.
Proof.
  unfold calculate_metrics.
  set (c1 := if falsy_time (end_time c) then end_conversation now c else c).
  assert (Hc1 : end_time c1
                 = Some match end_time c with
                        | Some e => if Qeq_bool e 0 then now else e
                        | None => now
                        end
                 /\ messages c1 = messages c /\ id c1 = id c
                 /\ api_name c1 = api_name c /\ model c1 = model c
                 /\ start_time c1 = start_time c /\ metrics c1 = metrics c).
  { subst c1. destruct (end_time c) as [e|] eqn:He; simpl.
    - destruct (Qeq_bool e 0); simpl; by rewrite ?He.
    - done. }
  destruct Hc1 as (Hend & Hmsgs & Hid & Hapi & Hmodel & Hstart & Hmetrics).
  rewrite Hend.
  destruct (_calculate_avg_response_length (messages c1)) as [q|e] eqn:Hq;
    simpl.
  - by rewrite Hend.
  - repeat split; try done.
    unfold _calculate_avg_response_length in Hq.
    destruct (map content _) as [|v vs]; [discriminate|].
    destruct (mapM content_length (v :: vs)) as [ls|e'] eqn:Hm;
      simpl in Hq; [discriminate|].
    injection Hq as <-. clear -Hm. revert Hm. generalize (v :: vs).
    intros l. induction l as [|x l IH]; simpl; [discriminate|].
    destruct (content_length x) as [z|e0] eqn:Hx; simpl.
    + destruct (mapM content_length l); simpl; [discriminate|].
      intros [= <-]. by apply IH.
    + intros [= <-]. by apply content_length_raises with x.
Qed.

(** X3: one assistant message whose content is [None] makes
    [calculate_metrics] raise [TypeError]: no metrics are stored, and the
    conversation has been ended all the same. *)
Theorem calculate_metrics_fails_on_missing_content (now : Q)
  (c : Conversation) (m : Message) :
  m ∈ messages c -> role m = "assistant" -> content m = PyNone ->
  (calculate_metrics now c).2 = Raise TypeError
  /\ metrics (calculate_metrics now c).1 = metrics c
  /\ is_Some (end_time (calculate_metrics now c).1).
Proof.
  intros Hin Hrole Hcontent.
  assert (Hraise : forall msgs, m ∈ msgs ->
            _calculate_avg_response_length msgs = Raise TypeError).
  { intros msgs Hm. unfold _calculate_avg_response_length.
    rewrite assistant_filter.
    assert (Hm' : m ∈ assistant_messages msgs)
      by (by apply list_elem_of_filter).
    destruct (assistant_messages msgs) as [|m0 ms] eqn:E;
      [by apply elem_of_nil in Hm'|].
    rewrite (mapM_raise content_length _ TypeError).
    - done.
    - intros a e'. apply content_length_raises.
    - apply Exists_exists. exists (content m). split.
      + apply list_elem_of_fmap. by exists m.
      + by rewrite Hcontent. }
  unfold calculate_metrics.
  set (c1 := if falsy_time (end_time c) then end_conversation now c else c).
  assert (Hc1 : messages c1 = messages c /\ metrics c1 = metrics c).
  { subst c1. by destruct (falsy_time (end_time c)). }
  destruct Hc1 as [Hmsgs Hmetrics].
  destruct (ended_after_metrics now c) as [e He]. fold c1 in He.
  rewrite He, Hmsgs, (Hraise _ Hin). simpl. rewrite He. by eauto.
Qed.
End EndedConversationFacts.

(** ** Further properties of the conversation store *)

Section ManagerFacts.
Import Py Models Spec Reference.

(** X4: [ConversationManager.end_conversation] returns [True] and sets
    the end time of the conversation to the clock reading when the
    identifier is a key of the store, overwriting an earlier end time; it
    returns [False] and leaves the store as it is otherwise. Pointers, keys
    and the other conversations are unchanged in both cases. *)
Theorem manager_end_conversation_soft_fails (now : Q) (conv_id : string)
  (st : ConversationManager) :
  let st' := (manager_end_conversation now conv_id st).1 in
  let found := (manager_end_conversation now conv_id st).2 in
  current_conversation_ids st' = current_conversation_ids st
  /\ (conversations st').*1 = (conversations st).*1
  /\ (forall other, other <> conv_id ->
        get_conversation other st' = get_conversation other st)
  /\ match get_conversation conv_id st with
     | Some c =>
         found = true
         /\ get_conversation conv_id st' = Some (set_end_time (Some now) c)
     | None => found = false /\ st' = st
     end.
Proof.
  unfold manager_end_conversation, get_conversation.
  destruct (dict_get conv_id (conversations st)) as [c|] eqn:Hget; simpl.
  - repeat split.
    + by apply dict_set_keys_present with c.
    + intros other Hother. by apply dict_get_set_ne.
    + apply dict_get_set_eq.
  - done.
Qed.

(** X5: after [start_conversation] with a non-empty identifier, both
    [get_current_conversation] of the backend and [get_conversation] of the
    identifier return the new conversation, which has no messages, no end
    time and no metrics; a conversation already stored under that
    identifier is replaced. Other conversations and the pointers of other
    backends are unchanged. *)
Theorem start_conversation_becomes_current (conv_id : string) (now : Q)
  (api model_name : string) (st : ConversationManager) :
  conv_id <> "" ->
  let st' := (start_conversation conv_id now api model_name st).1 in
  let fresh :=
    {| id := conv_id; api_name := api; messages := []; model := model_name;
       start_time := now; end_time := None; metrics := None |} in
  (start_conversation conv_id now api model_name st).2 = conv_id
  /\ get_current_conversation api st' = Some fresh
  /\ get_conversation conv_id st' = Some fresh
  /\ (forall other, other <> conv_id ->
        get_conversation other st' = get_conversation other st)
  /\ (forall api', api' <> api ->
        current_conversation_ids st' !! api'
        = current_conversation_ids st !! api').
Proof.
  intros Hid. unfold get_current_conversation, get_conversation. simpl.
  rewrite lookup_insert_eq, dict_get_set_eq.
  rewrite (proj2 (String.eqb_neq conv_id "") Hid).
  repeat split; try done.
  - intros other Hother. by apply dict_get_set_ne.
  - intros api' Hapi. by apply lookup_insert_ne.
Qed.

Lemma add_messages_found (conv_id : string) (ms : list Message) :
  forall (st : ConversationManager) (c : Conversation),
    get_conversation conv_id st = Some c ->
    get_conversation conv_id (add_messages conv_id ms st)
    = Some (set_messages (messages c ++ ms) c)
    /\ current_conversation_ids (add_messages conv_id ms st)
       = current_conversation_ids st
    /\ (conversations (add_messages conv_id ms st)).*1
       = (conversations st).*1
    /\ forall other, other <> conv_id ->
         get_conversation other (add_messages conv_id ms st)
         = get_conversation other st.
Proof.
  unfold add_messages.
  induction ms as [|m ms IH]; intros st c Hget; simpl.
  - rewrite app_nil_r. by destruct c.
  - unfold manager_add_message at 2 4 6 8.
    unfold get_conversation in Hget. rewrite Hget. simpl.
    destruct (IH (register conv_id (add_message m c) st) (add_message m c))
      as (Hc & Hcur & Hkeys & Hother).
    { unfold get_conversation. simpl. apply dict_get_set_eq. }
    rewrite Hc, Hcur, Hkeys. simpl. rewrite <- app_assoc. simpl.
    repeat split; try done.
    + by apply dict_set_keys_present with c.
    + intros other Hne. rewrite Hother by done.
      unfold get_conversation. simpl. by apply dict_get_set_ne.
Qed.

(** X6: adding messages to a stored conversation, one [add_message]
    after the other, appends them to its messages in the order of the
    calls, and changes no other conversation. *)
Theorem add_messages_appends_in_order (conv_id : string) (ms : list Message)
  (st : ConversationManager) (c : Conversation) :
  get_conversation conv_id st = Some c ->
  get_conversation conv_id (add_messages conv_id ms st)
  = Some (set_messages (messages c ++ ms) c)
  /\ (forall other, other <> conv_id ->
        get_conversation other (add_messages conv_id ms st)
        = get_conversation other st).
Proof.
  intros Hget. destruct (add_messages_found conv_id ms st c Hget)
    as (Hc & _ & _ & Hother). by split.
Qed.
End ManagerFacts.

Section SaveFacts.
Import Py Models Spec Reference.

Lemma calculate_metrics_typed (now : Q) (c : Conversation) :
  Forall (fun m => typed_content (content m) = true) (messages c) ->
  exists m, (calculate_metrics now c).2 = Ok m
            /\ num_turns m = count_role "user" (messages c)
            /\ saved_from c (calculate_metrics now c).1.
Proof.
  intros Htyped. unfold calculate_metrics.
  destruct (ended_after_metrics now c) as [e He].
  set (c1 := if falsy_time (end_time c) then end_conversation now c else c)
    in *.
  assert (Hc1 : messages c1 = messages c /\ id c1 = id c
                /\ api_name c1 = api_name c /\ start_time c1 = start_time c).
  { subst c1. by destruct (falsy_time (end_time c)). }
  destruct Hc1 as (Hmsgs & Hid & Hapi & Hstart).
  rewrite He, Hmsgs.
  destruct (typed_avg_response_length (messages c) Htyped) as [q Hq].
  rewrite Hq. cbn [fst snd]. eexists. split; [done|].
  split; [cbn [num_turns]; apply num_turns_count|].
  unfold saved_from. cbn [messages id api_name start_time end_time metrics
                            set_metrics].
  rewrite He. repeat split; try done.
  eexists. split; [done|]. cbn [num_turns]. apply num_turns_count.
Qed.

Lemma times_after_metrics (now : Q) (c : Conversation) :
  end_time (calculate_metrics now c).1
  = Some match end_time c with
         | Some e => if Qeq_bool e 0 then now else e
         | None => now
         end
  /\ start_time (calculate_metrics now c).1 = start_time c.
Proof.
  unfold calculate_metrics.
  set (c1 := if falsy_time (end_time c) then end_conversation now c else c).
  assert (Hc1 : end_time c1
                 = Some match end_time c with
                        | Some e => if Qeq_bool e 0 then now else e
                        | None => now
                        end
                 /\ start_time c1 = start_time c).
  { subst c1. destruct (end_time c) as [e|] eqn:He; simpl.
    - destruct (Qeq_bool e 0); simpl; by rewrite ?He.
    - done. }
  destruct Hc1 as [Hend Hstart]. rewrite Hend.
  destruct (_calculate_avg_response_length (messages c1)); simpl;
    by rewrite Hend.
Qed.

Lemma summary_row_after_metrics (fs : FileSystem) (now : Q)
  (c : Conversation) :
  format_time_error fs (start_time c) = None ->
  format_time_error fs now = None ->
  (forall t, end_time c = Some t -> format_time_error fs t = None) ->
  summary_row fs (calculate_metrics now c).1 = Ok tt.
Proof.
  intros Hstart Hnow Hend.
  destruct (times_after_metrics now c) as [He Hs].
  unfold summary_row. rewrite Hs, Hstart, He.
  destruct (end_time c) as [e|].
  - destruct (Qeq_bool e 0) eqn:Hzero.
    + destruct (Qeq_bool now 0); [done|]. by rewrite Hnow.
    + by rewrite Hzero, (Hend e).
  - destruct (Qeq_bool now 0); [done|]. by rewrite Hnow.
Qed.

Lemma save_each_succeeds (clock : nat -> Q) (fs : FileSystem)
  (directory : string) :
  makedirs_ok fs directory = true -> (forall f, write_ok fs f = true) ->
  (forall n, format_time_error fs (clock n) = None) ->
  forall (convs : list (string * Conversation)) (tick : nat),
    Forall (fun kc => saveable fs kc.2) convs ->
    exists convs' files tick',
      save_each clock fs directory tick convs = (convs', Ok (files, tick'))
      /\ Forall2 (fun kc kc' => kc'.1 = kc.1 /\ saved_from kc.2 kc'.2)
           convs convs'
      /\ Forall2 (fun kc' file => save_to_file fs directory kc'.2 = Ok file)
           convs' files
      /\ Forall (fun kc' => summary_row fs kc'.2 = Ok tt) convs'.
Proof.
  intros Hdir Hwrite Hclock convs.
  induction convs as [|[k c] rest IH]; intros tick Hall.
  - exists [], [], tick. by repeat split; try constructor.
  - apply Forall_cons in Hall as [Hc Hrest]. cbn [snd] in Hc.
    destruct Hc as (Htyped & Hdump & Hstart & Hend).
    cbn [save_each].
    set (c1 := if falsy_time (end_time c)
               then end_conversation (clock tick) c else c).
    set (tick1 := if falsy_time (end_time c) then S tick else tick).
    assert (Hc1 : messages c1 = messages c /\ id c1 = id c
                  /\ api_name c1 = api_name c
                  /\ start_time c1 = start_time c
                  /\ forall t, end_time c1 = Some t ->
                       format_time_error fs t = None).
    { subst c1. destruct (falsy_time (end_time c)); [|done].
      repeat split; try done. intros t [= <-]. apply Hclock. }
    destruct Hc1 as (Hmsgs & Hid & Hapi & Hstart1 & Hend1).
    replace (if falsy_time (end_time c)
             then (end_conversation (clock tick) c, S tick)
             else (c, tick)) with (c1, tick1)
      by (subst c1 tick1; by destruct (falsy_time (end_time c))).
    destruct (calculate_metrics_typed (clock tick1) c1)
      as (m & Hm & _ & Hsaved).
    { by rewrite Hmsgs. }
    pose proof (summary_row_after_metrics fs (clock tick1) c1) as Hrow.
    rewrite Hstart1 in Hrow. specialize (Hrow Hstart (Hclock _) Hend1).
    destruct (calculate_metrics (clock tick1) c1) as [c2 r] eqn:Hcm.
    cbn [fst snd] in Hm, Hsaved, Hrow. subst r.
    assert (Hfile : exists file, save_to_file fs directory c2 = Ok file).
    { unfold save_to_file. rewrite Hdir, Hwrite. cbn [negb].
      destruct Hsaved as (Hmsgs2 & _). rewrite Hmsgs2, Hmsgs, Hdump.
      by eexists. }
    destruct Hfile as [file Hfile]. rewrite Hfile.
    match goal with
    | |- context [save_each clock fs directory ?t rest] =>
        destruct (IH t Hrest)
          as (rest' & files & tick' & Heach & Hrel & Hfiles & Hrows)
    end.
    rewrite Heach. cbn [bind fst snd].
    eexists _, _, _. split; [done|]. split; [|split].
    + constructor; [|done]. split; [done|].
      destruct Hsaved as (H1 & H2 & H3 & H4 & H5 & m' & Hm' & Hturns).
      cbn [fst snd]. unfold saved_from.
      rewrite H1, H2, H3, H4, Hmsgs, Hid, Hapi, Hstart1.
      do 5 (split; [done|]). exists m'. split; [done|].
      by rewrite <- Hmsgs.
    + by constructor.
    + by constructor.
Qed.

Lemma summary_rows_with_metrics (clock : nat -> Q) (fs : FileSystem)
  (tick : nat) (convs : list (string * Conversation)) :
  Forall (fun kc => is_Some (metrics kc.2) /\ summary_row fs kc.2 = Ok tt)
    convs ->
  summary_rows clock fs tick convs = (convs, Ok tt).
Proof.
  induction 1 as [|[k c] rest [[m Hm] Hrow] _ IH]; [done|].
  simpl in *. by rewrite Hm, Hrow, IH.
Qed.

(** X7: on a platform that accepts every write and formats every clock
    reading, and for conversations it can save and summarize (contents of
    the declared types that [json.dump] accepts, a start time and, where
    set, an end time that the platform formats),
    [save_all_conversations] returns one file per conversation, in the
    order of the store. Every conversation keeps its key, messages,
    identifier, backend and start time, is ended, and carries metrics whose
    [num_turns] counts its user messages; the file returned for it is the
    one [save_to_file] names. The pointers are unchanged. *)
Theorem save_all_conversations_saves_each (clock : nat -> Q)
  (fs : FileSystem) (directory : string) (st : ConversationManager) :
  makedirs_ok fs directory = true -> (forall f, write_ok fs f = true) ->
  (forall n, format_time_error fs (clock n) = None) ->
  Forall (fun kc => saveable fs kc.2) (conversations st) ->
  let st' := (save_all_conversations clock fs directory st).1 in
  exists files,
    (save_all_conversations clock fs directory st).2 = Ok files
    /\ current_conversation_ids st' = current_conversation_ids st
    /\ Forall2 (fun kc kc' => kc'.1 = kc.1 /\ saved_from kc.2 kc'.2)
         (conversations st) (conversations st')
    /\ Forall2 (fun kc' file => save_to_file fs directory kc'.2 = Ok file)
         (conversations st') files.
Proof.
  intros Hdir Hwrite Hclock Hall. unfold save_all_conversations.
  rewrite Hdir. cbn [negb].
  destruct (save_each_succeeds clock fs directory Hdir Hwrite Hclock
              (conversations st) 0 Hall)
    as (convs' & files & tick' & Heach & Hrel & Hfiles & Hrows).
  rewrite Heach. unfold _create_summary_csv. cbn [conversations].
  rewrite Hwrite. cbn [negb].
  rewrite summary_rows_with_metrics.
  - simpl. by exists files.
  - clear -Hrel Hrows. induction Hrel as [|kc kc' l l' Hk _ IH];
      [constructor|].
    apply Forall_cons in Hrows as [Hrow Hrows].
    constructor; [|by apply IH]. split; [|done].
    destruct Hk as (_ & _ & _ & _ & _ & _ & m & Hm & _). by eexists.
Qed.
End SaveFacts.

(** ** The scores of the dimensions *)

Section AccuracyCompletenessFacts.
Import Py Models Evaluation Spec Reference.
Context `{Builtins}.

Lemma count_in_le (phrases : list str) (text : str) :
  (count_in phrases text <= flen phrases)%Q.
Proof. unfold count_in, flen. apply fnat_le, length_filter. Qed.

(** X8: the accuracy score is 0.8 - 0.05 u + 0.03 f, where u and f count
    the uncertainty phrases and the fact indicators found in the lowered
    response, each between 0 and 6. The score lies in [0.5, 0.98], so the
    clamp to [0.5, 1] never acts. *)
Theorem accuracy_is_never_clamped (prompt response : str) :
  let uncertain := count_in uncertainty_phrases (lower response) in
  let factual := count_in fact_indicators (lower response) in
  (_evaluate_accuracy prompt response
   == 0.8 - 0.05 * uncertain + 0.03 * factual)%Q
  /\ (0 <= uncertain <= 6)%Q /\ (0 <= factual <= 6)%Q
  /\ (0.5 <= _evaluate_accuracy prompt response <= 0.98)%Q.
Proof.
  intros uncertain factual.
  assert (Hu : (0 <= uncertain <= 6)%Q).
  { split; [apply count_in_nonneg|].
    apply (count_in_le uncertainty_phrases). }
  assert (Hf : (0 <= factual <= 6)%Q).
  { split; [apply count_in_nonneg|]. apply (count_in_le fact_indicators). }
  assert (Heq : (_evaluate_accuracy prompt response
                 == 0.8 - 0.05 * uncertain + 0.03 * factual)%Q).
  { unfold _evaluate_accuracy. fold uncertain factual.
    rewrite Q.max_r by lra. rewrite Q.min_r by lra. ring. }
  split; [exact Heq|]. split; [exact Hu|]. split; [exact Hf|].
  rewrite Heq. lra.
Qed.

(** X9: the completeness score by the length n of the response: 1 from
    500 characters on; 0.3 + 0.7 n / 500 up to 500 characters without a
    structure indicator; with one, 0.5 + 0.7 n / 500 up to 357 characters
    and 1 from 358 characters on. *)
Theorem completeness_by_length (prompt response : str) :
  let n := length response in
  let marked :=
    existsb (fun indicator => contains indicator response)
      structure_indicators in
  ((500 <= n)%nat -> (_evaluate_completeness prompt response == 1)%Q)
  /\ (marked = false -> (n <= 500)%nat ->
      (_evaluate_completeness prompt response
       == 0.3 + 0.7 * (fnat n / 500))%Q)
  /\ (marked = true -> (n <= 357)%nat ->
      (_evaluate_completeness prompt response
       == 0.5 + 0.7 * (fnat n / 500))%Q)
  /\ (marked = true -> (358 <= n)%nat ->
      (_evaluate_completeness prompt response == 1)%Q).
Proof.
  intros n marked. unfold _evaluate_completeness. fold marked.
  assert (Hn : (0 <= fnat n)%Q) by apply fnat_nonneg.
  assert (Hcmp : forall k : nat, (n <= k)%nat -> (fnat n <= fnat k)%Q)
    by (intros k; apply fnat_le).
  assert (Hcmp' : forall k : nat, (k <= n)%nat -> (fnat k <= fnat n)%Q)
    by (intros k; apply fnat_le).
  unfold flen. fold n.
  repeat split.
  - intros Hlong. specialize (Hcmp' 500%nat Hlong).
    change (fnat 500) with 500%Q in Hcmp'.
    rewrite (Q.min_l 1 (fnat n / 500)).
    + apply Q.min_l. destruct marked; lra.
    + apply Qle_shift_div_l; lra.
  - intros -> Hshort. specialize (Hcmp 500%nat Hshort).
    change (fnat 500) with 500%Q in Hcmp.
    assert (fnat n / 500 <= 1)%Q by (apply Qle_shift_div_r; lra).
    assert (0 <= fnat n / 500)%Q by (apply ratio_nonneg; lra).
    assert (Hmin : (Qmin 1 (fnat n / 500) == fnat n / 500)%Q)
      by (apply Q.min_r; lra).
    rewrite Hmin.
    rewrite Q.min_r by lra. ring.
  - intros -> Hshort. specialize (Hcmp 357%nat Hshort).
    change (fnat 357) with 357%Q in Hcmp.
    assert (fnat n / 500 <= 0.714)%Q by (apply Qle_shift_div_r; lra).
    assert (0 <= fnat n / 500)%Q by (apply ratio_nonneg; lra).
    rewrite (Q.min_r 1 (fnat n / 500)) by lra.
    rewrite Q.min_r by lra. ring.
  - intros -> Hlong. specialize (Hcmp' 358%nat Hlong).
    change (fnat 358) with 358%Q in Hcmp'.
    assert (0.716 <= fnat n / 500)%Q by (apply Qle_shift_div_l; lra).
    assert (0.716 <= Qmin 1 (fnat n / 500))%Q by (apply Q.min_glb; lra).
    apply Q.min_l. lra.
Qed.
End AccuracyCompletenessFacts.

Section CoherenceCreativityFacts.
Import Py Models Evaluation Spec Reference.
Context `{Builtins}.

Lemma split_from_nonempty (sep : str) (s : str) :
  forall (skip : nat) (cur : str),
    (1 <= length (split_from sep skip cur s))%nat.
Proof.
  induction s as [|c s IH]; intros skip cur; simpl; [lia|].
  destruct skip; [|apply IH].
  destruct (startswith sep (c :: s)); simpl; [lia|apply IH].
Qed.

(** X10: the coherence score lies in [5/6, 1] for every response and
    context: splitting on blank lines yields at least one paragraph, which
    is worth 1/30 above the base score 0.8. *)
Theorem coherence_at_least_five_sixths (prompt response : str)
  (context : list (str * str)) :
  (5 # 6 <= _evaluate_coherence prompt response context <= 1)%Q.
Proof.
  unfold _evaluate_coherence. split; [|apply Q.le_min_l].
  apply Q.min_glb; [lra|].
  assert (Hpar : (1 # 3 <= Qmin 1 (flen (split_on (nl ++ nl) response) / 3))%Q).
  { apply Q.min_glb; [lra|]. apply Qle_shift_div_l; [lra|].
    pose proof (fnat_le 1 _ (split_from_nonempty (nl ++ nl) response 0 [])).
    unfold flen, split_on. change (fnat 1) with 1%Q in *. lra. }
  assert (0 <= Qmin 0.1 (count_in connectors (lower response) * 0.02))%Q.
  { apply min_nonneg; [lra|].
    pose proof (count_in_nonneg connectors (lower response)). lra. }
  destruct context as [|turn context]; [lra|].
  match goal with
  | |- context [(?a / ?b * 0.1)%Q] =>
      assert (0 <= a / b)%Q
        by (apply ratio_nonneg; [apply fnat_nonneg|apply at_least_one_pos])
  end.
  lra.
Qed.

Lemma size_list_to_set_le (words : list str) :
  (size (list_to_set words : gset str) <= length words)%nat.
Proof.
  induction words as [|w words IH].
  - by rewrite list_to_set_nil, size_empty.
  - rewrite list_to_set_cons, size_union_alt, size_singleton. cbn [length].
    assert (Hsub : list_to_set words ∖ {[w]} ⊆ (list_to_set words : gset str)).
    { intros x Hx. by apply elem_of_difference in Hx as [Hx _]. }
    apply subseteq_size in Hsub. lia.
Qed.

(** X11: when the square root is non-negative, the creativity score lies
    between 0.7 + 0.1 d and 0.9 + 0.1 d, where d in [0, 1] is the share of
    distinct tokens of the lowered response; it lies in [0.7, 1], so the
    lower clamp at 0.5 never acts. *)
Theorem creativity_is_never_clamped (response : str) :
  (forall x, 0 <= sqrt x)%Q ->
  let words := _tokenize (lower response) in
  let diversity :=
    (fnat (size (list_to_set words : gset str))
     / at_least_one (length words))%Q in
  (0 <= diversity <= 1)%Q
  /\ (0.7 + 0.1 * diversity <= _evaluate_creativity response)%Q
  /\ (_evaluate_creativity response <= 0.9 + 0.1 * diversity)%Q
  /\ (0.7 <= _evaluate_creativity response <= 1)%Q.
Proof.
  intros Hsqrt words diversity.
  assert (Hdiv : (0 <= diversity <= 1)%Q).
  { split.
    - apply ratio_nonneg; [apply fnat_nonneg|apply at_least_one_pos].
    - apply Qle_shift_div_r; [apply at_least_one_pos|].
      rewrite Qmult_1_l.
      eapply Qle_trans; [|apply at_least_one_ge].
      apply fnat_le, size_list_to_set_le. }
  unfold _evaluate_creativity. fold words. fold diversity.
  set (rhetoric := Qmin 0.1 (count_in rhetoric_phrases (lower response) * 0.03)).
  match goal with
  | |- context [Qmin 0.1 (?sd * 0.5)] => set (sentence := Qmin 0.1 (sd * 0.5));
      assert (Hsd : (0 <= sd)%Q)
  end.
  { destruct (filter _ _) as [|s ss]; [lra|].
    apply ratio_nonneg.
    - apply Hsqrt.
    - eapply Qlt_le_trans; [|apply Q.le_max_l]. lra. }
  assert (Hrh : (0 <= rhetoric <= 0.1)%Q).
  { split; [|apply Q.le_min_l]. apply min_nonneg; [lra|].
    pose proof (count_in_nonneg rhetoric_phrases (lower response)). lra. }
  assert (Hse : (0 <= sentence <= 0.1)%Q).
  { split; [|apply Q.le_min_l]. apply min_nonneg; lra. }
  rewrite Q.max_r by lra. rewrite Q.min_r by lra.
  split; [exact Hdiv|]. repeat split; lra.
Qed.
End CoherenceCreativityFacts.

Section TokenizerFacts.
Import Py Models Evaluation Spec Reference.
Context `{Builtins}.

Lemma replace_single (a b : N) (s : str) :
  replace [a] [b] s = map (fun c => if (a =? c)%N then b else c) s.
Proof.
  unfold replace. induction s as [|c s IH]; [done|].
  cbn [replace_from startswith length Nat.sub map].
  rewrite andb_true_r.
  destruct (a =? c)%N; cbn [app]; by rewrite IH.
Qed.

Lemma split_ws_tokens (s : str) :
  forall cur : str,
    Forall (fun c => isspace c = false) cur ->
    Forall (fun token =>
              token <> []
              /\ Forall (fun c => isspace c = false /\ c ∈ cur ++ s) token)
      (split_ws cur s).
Proof.
  induction s as [|c s IH]; intros cur Hcur.
  - destruct cur as [|c0 cur]; simpl; [constructor|].
    constructor; [|constructor]. split; [done|].
    rewrite app_nil_r. apply Forall_forall. intros c Hc. split; [|done].
    by apply (proj1 (Forall_forall _ _) Hcur).
  - cbn [split_ws]. destruct (isspace c) eqn:Hc.
    + assert (Hrest : Forall (fun token =>
                token <> []
                /\ Forall (fun c' => isspace c' = false
                                     /\ c' ∈ cur ++ c :: s) token)
                (split_ws [] s)).
      { eapply Forall_impl; [apply (IH []); constructor|].
        intros token [Hne Htok]. split; [done|].
        eapply Forall_impl; [exact Htok|]. intros c' [Hs Hin].
        split; [done|]. simpl in Hin. apply elem_of_app. right. by right. }
      destruct cur as [|c0 cur]; [done|].
      constructor; [|done]. split; [done|].
      apply Forall_forall. intros c' Hc'. split.
      * by apply (proj1 (Forall_forall _ _) Hcur).
      * apply elem_of_app. by left.
    + eapply Forall_impl; [apply (IH (cur ++ [c]))|].
      * apply Forall_app. split; [done|]. by constructor.
      * intros token [Hne Htok]. split; [done|].
        eapply Forall_impl; [exact Htok|]. intros c' [Hs Hin].
        split; [done|]. by rewrite <- app_assoc in Hin.
Qed.

Lemma tokenize_cleans (text : str) :
  exists cleaned : str,
    _tokenize text = split cleaned
    /\ Forall (fun c => c ∉ token_separators) cleaned.
Proof.
  eexists. split.
  - unfold _tokenize.
    change (lit "，") with [65292%N]. change (lit "。") with [12290%N].
    change (lit "！") with [65281%N]. change (lit "？") with [65311%N].
    change (lit "、") with [12289%N]. change (lit " ") with [32%N].
    rewrite !replace_single. reflexivity.
  - rewrite !Forall_fmap. apply Forall_forall. intros c _.
    unfold compose, token_separators. cbv beta.
    repeat match goal with
           | |- context [(?a =? ?b)%N] => destruct (N.eqb_spec a b)
           end; subst;
      repeat (apply not_elem_of_cons; split; [congruence || lia|]);
      apply not_elem_of_nil.
Qed.

(** X12: every token [_tokenize] returns is non-empty and contains
    neither a whitespace character nor one of the five punctuation marks
    it replaces by spaces. *)
Theorem tokenize_yields_clean_tokens (text : str) :
  Forall (fun token =>
            token <> []
            /\ Forall (fun c => isspace c = false
                                /\ c ∉ token_separators) token)
    (_tokenize text).
Proof.
  destruct (tokenize_cleans text) as (cleaned & -> & Hclean).
  eapply Forall_impl; [apply (split_ws_tokens cleaned []); constructor|].
  intros token [Hne Htok]. split; [done|].
  eapply Forall_impl; [exact Htok|]. intros c [Hs Hin].
  split; [done|]. by apply (proj1 (Forall_forall _ _) Hclean).
Qed.
End TokenizerFacts.

(** ** The averages of a conversation *)

Section AverageFacts.
Import Py Models Evaluation Spec Reference.
Context `{Builtins}.

Lemma fnat_S (n : nat) : (fnat (S n) == fnat n + 1)%Q.
Proof.
  unfold fnat. rewrite Nat2Z.inj_succ, <- Z.add_1_r, inject_Z_plus.
  reflexivity.
Qed.

Lemma sum_bounds (lo hi : Q) (xs : list Q) :
  Forall (fun x => lo <= x <= hi)%Q xs ->
  (lo * fnat (length xs) <= fold_right Qplus 0 xs <= hi * fnat (length xs))%Q.
Proof.
  induction 1 as [|x xs Hx _ IH]; cbn [length fold_right].
  - change (fnat 0) with 0%Q. lra.
  - rewrite fnat_S. lra.
Qed.

Lemma mean_bounds (lo hi : Q) (xs : list Q) :
  xs <> [] -> Forall (fun x => lo <= x <= hi)%Q xs ->
  (lo <= mean xs <= hi)%Q.
Proof.
  intros Hne Hall. destruct xs as [|x xs]; [done|].
  unfold mean. pose proof (sum_bounds lo hi _ Hall) as [Hlo Hhi].
  assert (Hpos : (0 < fnat (length (x :: xs)))%Q).
  { cbn [length]. rewrite fnat_S. pose proof (fnat_nonneg (length xs)). lra. }
  split.
  - apply Qle_shift_div_l; [done|]. exact Hlo.
  - apply Qle_shift_div_r; [done|]. exact Hhi.
Qed.

Lemma evaluate_response_in_unit_range (prompt response : str)
  (context : list (str * str)) :
  exists s,
    evaluate_response EVALUATION_DIMENSIONS prompt response context = Ok s
    /\ scored_in_unit_range s.
Proof.
  pose proof (relevance_range prompt response) as Hrel.
  pose proof (accuracy_range prompt response) as Hacc.
  pose proof (completeness_range prompt response) as Hcomp.
  pose proof (coherence_range prompt response context) as Hcoh.
  pose proof (creativity_range response) as Hcre.
  eexists. split; [reflexivity|]. split; [|split].
  - by repeat eexists.
  - cbn [total_score]. lra.
  - cbn [dimensions]. repeat constructor; cbn [snd score]; lra.
Qed.

Lemma score_turns_in_unit_range (texts : list (str * str)) :
  forall (context : list (str * str)) (ss : list ResponseEvaluation),
    score_turns EVALUATION_DIMENSIONS context texts = Ok ss ->
    length ss = length texts /\ Forall scored_in_unit_range ss.
Proof.
  induction texts as [|[p r] texts IH]; intros context ss; cbn [score_turns].
  - intros [= <-]. by split.
  - destruct (evaluate_response_in_unit_range p r context) as (s & -> & Hs).
    cbn [bind].
    destruct (score_turns EVALUATION_DIMENSIONS (context ++ [(p, r)]) texts)
      as [ss'|e] eqn:Hss; cbn [bind]; [|discriminate].
    intros [= <-]. destruct (IH _ _ Hss) as [Hlen Hall].
    split; [simpl; by rewrite Hlen|by constructor].
Qed.

Lemma evaluate_turns_default (msgs : list Message)
  (texts : list (str * str)) :
  Forall2 turn_texts (turns msgs) texts ->
  exists ss,
    evaluate_turns EVALUATION_DIMENSIONS msgs ([], [])
      (range_by_two (length msgs)) = Ok (ss, texts)
    /\ score_turns EVALUATION_DIMENSIONS [] texts = Ok ss
    /\ length texts = (length msgs / 2)%nat.
Proof.
  intros Htexts. destruct (turns_spec msgs) as [Hlen Hidx].
  assert (Hlen' : length texts = (length msgs / 2)%nat).
  { by rewrite <- (Forall2_length _ _ _ Htexts). }
  destruct (score_turns_default [] texts) as (ss & Hss & Hsslen & Hall).
  exists ss. split; [|by split].
  rewrite range_by_two_split, evaluate_turns_app, <- Hlen'.
  rewrite (evaluate_turns_score_turns _ _ _ 0%nat).
  - rewrite Hss. cbn [bind app]. rewrite Hlen'.
    destruct (Nat.even (length msgs)) eqn:Heven; [done|].
    cbn [evaluate_turns]. by rewrite trailing_message_skipped.
  - intros k t Ht.
    destruct (Forall2_lookup_r _ _ _ _ _ Htexts Ht) as ([m m'] & Hk & Hturn).
    destruct (Hidx _ _ _ Hk) as [Hm Hm']. by exists m, m'.
Qed.

Lemma average_dimension_is_mean (scores : list ResponseEvaluation)
  (dim : string) :
  scores <> [] ->
  Forall scored_in_unit_range scores ->
  dim ∈ EVALUATION_DIMENSIONS.*1 ->
  exists q,
    average_dimension scores dim = Ok (dim, q)
    /\ (q == mean (map (dimension_score dim) scores))%Q
    /\ (0 <= q <= 1)%Q.
Proof.
  intros Hne Hall Hdim. unfold average_dimension.
  assert (Hscore : Forall (fun s =>
            (d <- getitem dim (dimensions s) ;; Ok (score d))
            = Ok (dimension_score dim s)
            /\ (0 <= dimension_score dim s <= 1)%Q) scores).
  { eapply Forall_impl; [exact Hall|].
    intros s ((rel & acc & comp & coh & cre & Hdims) & _ & Hrange).
    unfold dimension_score, getitem. rewrite Hdims in *.
    apply Forall_cons in Hrange as [Hr1 Hrange].
    apply Forall_cons in Hrange as [Hr2 Hrange].
    apply Forall_cons in Hrange as [Hr3 Hrange].
    apply Forall_cons in Hrange as [Hr4 Hrange].
    apply Forall_cons in Hrange as [Hr5 _].
    cbn [snd] in *.
    unfold EVALUATION_DIMENSIONS in Hdim. cbn [fmap list_fmap fst] in Hdim.
    repeat (apply elem_of_cons in Hdim as [->|Hdim]; [by split|]).
    by apply elem_of_nil in Hdim. }
  rewrite (mapM_map _ (dimension_score dim) scores).
  - cbn [bind]. eexists. split; [done|].
    assert (Hmean : (Py.sum (map (dimension_score dim) scores) / flen scores
                     == mean (map (dimension_score dim) scores))%Q).
    { destruct scores as [|s scores]; [done|].
      unfold mean, Py.sum, flen. cbn [map]. rewrite sum_fold_right.
      apply Qmult_comp; [lra|]. cbn [length]. by rewrite length_map. }
    split; [exact Hmean|]. rewrite Hmean. apply mean_bounds.
    + by destruct scores.
    + apply Forall_fmap. eapply Forall_impl; [exact Hscore|].
      by intros s [_ Hs].
  - eapply Forall_impl; [exact Hscore|]. by intros s [Hs _].
Qed.

(** X13: for a conversation of at least two messages whose turns are
    texts, [evaluate_conversation] with the default dimensions returns turn
    scores, their mean total score and, for each of the five dimensions in
    the order of [EVALUATION_DIMENSIONS], the mean of its scores; all these
    averages lie in [0, 1]. *)
Theorem evaluate_conversation_reports_means (msgs : list Message)
  (texts : list (str * str)) :
  Forall2 turn_texts (turns msgs) texts ->
  (2 <= length msgs)%nat ->
  exists scores avg avgs,
    evaluate_conversation EVALUATION_DIMENSIONS msgs
    = Ok (Evaluated scores avg avgs)
    /\ (avg == mean (map total_score scores))%Q
    /\ (0 <= avg <= 1)%Q
    /\ Forall2 (fun kv dim =>
                  kv.1 = dim.1
                  /\ (kv.2 == mean (map (dimension_score dim.1) scores))%Q
                  /\ (0 <= kv.2 <= 1)%Q)
         avgs EVALUATION_DIMENSIONS.
Proof.
  intros Htexts Hlen.
  destruct (evaluate_turns_default msgs texts Htexts) as (ss & Hloop & Hss & Hn).
  destruct (score_turns_in_unit_range texts [] ss Hss) as [Hsslen Hall].
  assert (Hne : ss <> []).
  { intros ->. simpl in Hsslen.
    assert (1 <= length msgs / 2)%nat
      by (by apply Nat.div_le_lower_bound). lia. }
  unfold evaluate_conversation. rewrite Hloop. cbn [bind fst].
  destruct ss as [|s ss]; [done|].
  set (scores := s :: ss) in *.
  assert (Havgs : exists avgs,
    mapM (fun '(dim, _) => average_dimension scores dim)
      EVALUATION_DIMENSIONS = Ok avgs
    /\ Forall2 (fun kv dim =>
                  kv.1 = dim.1
                  /\ (kv.2 == mean (map (dimension_score dim.1) scores))%Q
                  /\ (0 <= kv.2 <= 1)%Q)
         avgs EVALUATION_DIMENSIONS).
  { assert (Hsub : forall dim, dim ∈ EVALUATION_DIMENSIONS ->
              dim.1 ∈ EVALUATION_DIMENSIONS.*1).
    { intros dim Hdim. apply list_elem_of_fmap. by exists dim. }
    revert Hsub. generalize EVALUATION_DIMENSIONS at 1 3 4.
    intros dims. induction dims as [|[dim w] dims IH]; intros Hsub.
    - exists []. split; [done|constructor].
    - destruct (average_dimension_is_mean scores dim Hne Hall)
        as (q & Hq & Hmean & Hrange).
      { apply (Hsub (dim, w)). by left. }
      destruct IH as (avgs & Havgs & Hrel).
      { intros d Hd. apply Hsub. by right. }
      exists ((dim, q) :: avgs). cbn [mapM]. rewrite Hq. cbn [bind].
      rewrite Havgs. cbn [bind]. split; [done|]. by constructor. }
  destruct Havgs as (avgs & -> & Hrel). cbn [bind].
  eexists _, _, _. split; [done|].
  assert (Hmean : (Py.sum (map total_score scores) / flen scores
                   == mean (map total_score scores))%Q).
  { unfold mean, Py.sum, flen, scores. cbn [map]. rewrite sum_fold_right.
    apply Qmult_comp; [lra|]. cbn [length]. by rewrite length_map. }
  split; [exact Hmean|]. split; [|exact Hrel].
  rewrite Hmean. apply mean_bounds; [done|].
  apply Forall_fmap. eapply Forall_impl; [exact Hall|].
  by intros s' (_ & Hs' & _).
Qed.
End AverageFacts.

Section ContentFacts.
Import Py Models Evaluation Spec Reference.
Context `{Builtins}.

Lemma map_is_fmap {A B} (f : A -> B) (l : list A) : map f l = f <$> l.
Proof. induction l as [|a l IH]; [done|]. simpl. by rewrite IH. Qed.

Lemma evaluate_turn_contents (dims : list (string * Q))
  (msgs msgs' : list Message)
  (state : list ResponseEvaluation * list (str * str)) (i : nat) :
  map content msgs = map content msgs' ->
  evaluate_turn dims msgs state i = evaluate_turn dims msgs' state i.
Proof.
  intros Hcontents. unfold evaluate_turn. destruct state as [scores context].
  assert (Hlen : length msgs = length msgs').
  { by rewrite <- (length_map content msgs), Hcontents, length_map. }
  assert (Hget : forall j, content <$> msgs !! j = content <$> msgs' !! j).
  { intros j. rewrite !map_is_fmap in Hcontents.
    by rewrite <- !list_lookup_fmap, Hcontents. }
  rewrite Hlen. destruct (i + 1 <? length msgs')%nat; [|done].
  pose proof (Hget i) as Hi. pose proof (Hget (i + 1)%nat) as Hi'.
  destruct (msgs !! i) as [m|], (msgs' !! i) as [n|]; simpl in Hi;
    try discriminate; [|done].
  destruct (msgs !! (i + 1)%nat) as [m'|], (msgs' !! (i + 1)%nat) as [n'|];
    simpl in Hi'; try discriminate; [|done].
  injection Hi as ->. by injection Hi' as ->.
Qed.

(** X14: [evaluate_conversation] reads the contents of the messages and
    nothing else: two message lists with the same contents in the same
    order get the same evaluation (or the same exception), whatever their
    roles and timestamps. *)
Theorem evaluate_conversation_reads_contents_only
  (dims : list (string * Q)) (msgs msgs' : list Message) :
  map content msgs = map content msgs' ->
  evaluate_conversation dims msgs = evaluate_conversation dims msgs'.
Proof.
  intros Hcontents. unfold evaluate_conversation.
  assert (Hlen : length msgs = length msgs').
  { by rewrite <- (length_map content msgs), Hcontents, length_map. }
  rewrite Hlen.
  assert (Hturns : forall indices state,
            evaluate_turns dims msgs state indices
            = evaluate_turns dims msgs' state indices).
  { induction indices as [|i indices IH]; intros state; [done|].
    cbn [evaluate_turns]. rewrite (evaluate_turn_contents dims msgs msgs')
      by done.
    destruct (evaluate_turn dims msgs' state i); cbn [bind]; [apply IH|done]. }
  by rewrite Hturns.
Qed.

End ContentFacts.

(** ** Batch evaluation *)

Section OverallScoreFacts.
Import Py Models Evaluation Spec Reference Batch.

Lemma collect_score_gathered (api_name : string)
  (acc : list (string * list Q)) (scores : list Q)
  (entry : string * ApiEvaluation) :
  gathered api_name acc scores ->
  gathered api_name (collect_score acc entry)
    (scores ++ (if String.eqb entry.1 api_name && negb (has_error entry.2)
                then [average_score_of entry.2] else [])).
Proof.
  unfold gathered. destruct entry as [name api_eval].
  unfold collect_score. cbn [fst snd]. intros Hacc.
  destruct (has_error api_eval) eqn:Herr; cbn [negb].
  - by rewrite andb_false_r, app_nil_r.
  - rewrite andb_true_r. destruct (String.eqb_spec name api_name) as [->|Hne].
    + rewrite dict_get_set_eq, Hacc. by destruct scores.
    + by rewrite dict_get_set_ne, app_nil_r.
Qed.

Lemma collect_flow_gathered (api_name : string)
  (test_eval : list (string * ApiEvaluation)) :
  forall (acc : list (string * list Q)) (scores : list Q),
    gathered api_name acc scores ->
    gathered api_name (fold_left collect_score test_eval acc)
      (scores
       ++ omap (fun '(name, api_eval) =>
                  if String.eqb name api_name && negb (has_error api_eval)
                  then Some (average_score_of api_eval) else None)
            test_eval).
Proof.
  induction test_eval as [|[name api_eval] test_eval IH];
    intros acc scores Hacc.
  - by rewrite app_nil_r.
  - cbn [fold_left]. pose proof (collect_score_gathered api_name acc scores
                                   (name, api_eval) Hacc) as Hstep.
    apply IH in Hstep. cbn [fst snd] in Hstep. csimpl.
    destruct (String.eqb name api_name && negb (has_error api_eval)).
    + by rewrite <- app_assoc in Hstep.
    + by rewrite app_nil_r in Hstep.
Qed.

Lemma collect_scores_gathered (api_name : string)
  (evaluation_results : list (string * list (string * ApiEvaluation))) :
  gathered api_name (collect_scores evaluation_results)
    (scores_of api_name evaluation_results).
Proof.
  unfold collect_scores.
  assert (Hgen : forall acc scores,
            gathered api_name acc scores ->
            gathered api_name
              (fold_left
                 (fun acc '(_, test_eval) =>
                    fold_left collect_score test_eval acc)
                 evaluation_results acc)
              (scores ++ scores_of api_name evaluation_results)).
  { induction evaluation_results as [|[flow test_eval] rest IH];
      intros acc scores Hacc.
    - by rewrite app_nil_r.
    - cbn [fold_left scores_of flat_map]. rewrite app_assoc.
      apply IH. by apply collect_flow_gathered. }
  apply (Hgen [] []). done.
Qed.

Lemma dict_get_map {V W} (f : V -> W) (k : string) (d : list (string * V)) :
  dict_get k (map (fun '(k', v) => (k', f v)) d) = f <$> dict_get k d.
Proof.
  induction d as [|[k' v] d IH]; [done|]. simpl.
  by destruct (String.eqb k' k).
Qed.

(** X15: the overall score of a backend is the mean of the average
    scores of its evaluations without an error entry, over all flows; a
    backend without such an evaluation has no overall score; when those
    averages lie in [0, 1], so does the overall score. *)
Theorem overall_scores_are_means (api_name : string)
  (evaluation_results : list (string * list (string * ApiEvaluation))) :
  let scores := scores_of api_name evaluation_results in
  (scores = [] ->
   dict_get api_name (overall_scores evaluation_results) = None)
  /\ (scores <> [] ->
      exists q,
        dict_get api_name (overall_scores evaluation_results) = Some q
        /\ (q == mean scores)%Q
        /\ (Forall (fun x => 0 <= x <= 1)%Q scores -> (0 <= q <= 1)%Q)).
Proof.
  intros scores. unfold overall_scores.
  rewrite (dict_get_map
             (fun scores => match scores with
                            | [] => 0%Q
                            | _ => (Py.sum scores / flen scores)%Q
                            end)).
  pose proof (collect_scores_gathered api_name evaluation_results) as Hg.
  unfold gathered in Hg. subst scores.
  destruct (scores_of api_name evaluation_results) as [|x xs]; rewrite Hg.
  { split; [done|]. by intros []. }
  split; [done|]. intros _.
  eexists. split; [reflexivity|].
  assert (Hmean : (Py.sum (x :: xs) / flen (x :: xs) == mean (x :: xs))%Q).
  { unfold mean, Py.sum, flen. rewrite sum_fold_right.
    apply Qmult_comp; [lra|reflexivity]. }
  split; [exact Hmean|]. intros Hall. rewrite Hmean.
  by apply mean_bounds.
Qed.
End OverallScoreFacts.

Section LookupFacts.
Import Py Models Evaluation Spec Reference Batch.

Lemma prefix_append (s t : string) : String.prefix s (s +:+ t) = true.
Proof.
  induction s as [|a s IH]; simpl; [by destruct t|].
  destruct (Ascii.ascii_dec a a); [done|congruence].
Qed.

Lemma append_assoc (a b c : string) : (a +:+ b) +:+ c = a +:+ b +:+ c.
Proof.
  induction a as [|x a IH]; [done|].
  change ((String x a +:+ b) +:+ c) with (String x ((a +:+ b) +:+ c)).
  by rewrite IH.
Qed.

Lemma str_contains_unfold (needle hay : string) :
  str_contains needle hay
  = String.prefix needle hay
    || match hay with
       | EmptyString => false
       | String _ rest => str_contains needle rest
       end.
Proof. by destruct hay. Qed.

Lemma str_contains_prefix (s t : string) : str_contains s (s +:+ t) = true.
Proof. by rewrite str_contains_unfold, prefix_append. Qed.

Lemma str_contains_append (s a b : string) :
  str_contains s (a +:+ s +:+ b) = true.
Proof.
  induction a as [|x a IH].
  - change ("" +:+ s +:+ b)%string with (s +:+ b)%string.
    apply str_contains_prefix.
  - change (String x a +:+ s +:+ b)%string
      with (String x (a +:+ s +:+ b)).
    by rewrite str_contains_unfold, IH, orb_true_r.
Qed.

Lemma find_in_files_skips (conversation_id api_name root : string)
  (earlier rest : list string) :
  Forall (fun file =>
            str_contains conversation_id file && str_contains api_name file
            = false) earlier ->
  find_in_files conversation_id api_name root (earlier ++ rest)
  = find_in_files conversation_id api_name root rest.
Proof.
  induction 1 as [|file earlier Hfile _ IH]; [done|].
  cbn [app find_in_files]. by rewrite Hfile.
Qed.

Lemma find_in_files_some (conversation_id api_name root : string)
  (files : list string) (file : string) :
  file ∈ files ->
  str_contains conversation_id file && str_contains api_name file = true ->
  is_Some (find_in_files conversation_id api_name root files).
Proof.
  intros Hin Hmatch. induction files as [|other files IH];
    [by apply elem_of_nil in Hin|].
  cbn [find_in_files]. apply elem_of_cons in Hin as [<-|Hin].
  - rewrite Hmatch. by eexists.
  - destruct (str_contains conversation_id other && _);
      [by eexists|by apply IH].
Qed.

(** X16: the file [save_to_file] writes for a conversation is
    [directory/api_id_start.json], and the file search of
    [evaluate_api_responses] for that identifier and backend finds a file
    in a walk that lists it; it finds this very file when no file listed
    before it contains both the identifier and the backend name. *)
Theorem saved_conversation_is_located (fs : FileSystem) (directory : string)
  (c : Conversation) (path : string) (earlier later : list string)
  (other_directories : list (string * list string)) :
  save_to_file fs directory c = Ok path ->
  let name :=
    (api_name c +:+ "_" +:+ id c +:+ "_"
     +:+ pretty (int_of (start_time c)) +:+ ".json")%string in
  let walk := (directory, earlier ++ name :: later) :: other_directories in
  path = (directory +:+ "/" +:+ name)%string
  /\ is_Some (find_conversation_file (id c) (api_name c) walk)
  /\ (Forall (fun file =>
                str_contains (id c) file && str_contains (api_name c) file
                = false) earlier ->
      find_conversation_file (id c) (api_name c) walk = Some path).
Proof.
  intros Hsaved name walk.
  assert (Hpath : path = (directory +:+ "/" +:+ name)%string).
  { unfold save_to_file in Hsaved.
    destruct (makedirs_ok fs directory); [|discriminate]. cbn [negb] in Hsaved.
    destruct (write_ok fs _); [|discriminate]. cbn [negb] in Hsaved.
    destruct (dump_messages fs (messages c)); [|discriminate].
    by injection Hsaved as <-. }
  assert (Hmatch : str_contains (id c) name && str_contains (api_name c) name
                   = true).
  { apply andb_true_intro. split.
    - subst name.
      replace (api_name c +:+ "_" +:+ id c +:+ "_"
               +:+ pretty (int_of (start_time c)) +:+ ".json")%string
        with ((api_name c +:+ "_") +:+ id c
              +:+ ("_" +:+ pretty (int_of (start_time c)) +:+ ".json"))%string.
      + apply str_contains_append.
      + by rewrite !append_assoc.
    - apply str_contains_prefix. }
  split; [exact Hpath|]. split.
  - unfold walk. cbn [find_conversation_file].
    destruct (find_in_files_some (id c) (api_name c) directory
                (earlier ++ name :: later) name) as [found ->]; [|done|done].
    apply elem_of_app. right. by left.
  - intros Hearlier. unfold walk. cbn [find_conversation_file].
    rewrite find_in_files_skips by done. cbn [find_in_files].
    by rewrite Hmatch, Hpath.
Qed.
End LookupFacts.

Section BatchRangeFacts.
Import Py Models Evaluation Spec Reference Batch.
Context `{Builtins}.

Lemma evaluate_turn_in_unit_range (msgs : list Message)
  (state state' : list ResponseEvaluation * list (str * str)) (i : nat) :
  Forall scored_in_unit_range state.1 ->
  evaluate_turn EVALUATION_DIMENSIONS msgs state i = Ok state' ->
  Forall scored_in_unit_range state'.1.
Proof.
  intros Hall. unfold evaluate_turn. destruct state as [scores context].
  destruct (i + 1 <? length msgs)%nat; [|by intros [= <-]].
  destruct (msgs !! i) as [m|]; [|by intros [= <-]].
  destruct (msgs !! (i + 1)%nat) as [m'|]; [|by intros [= <-]].
  destruct (extract_text (content m)) as [prompt|e]; cbn [bind];
    [|discriminate].
  unfold evaluate_response_dyn.
  destruct prompt as [p|items|d|]; try discriminate.
  destruct (content m') as [r|items|d|]; try discriminate.
  destruct (evaluate_response_in_unit_range p r context) as (s & -> & Hs).
  cbn [bind]. intros [= <-]. cbn [fst]. apply Forall_app.
  split; [done|by constructor].
Qed.

Lemma evaluate_turns_in_unit_range (msgs : list Message)
  (indices : list nat) :
  forall state state' : list ResponseEvaluation * list (str * str),
    Forall scored_in_unit_range state.1 ->
    evaluate_turns EVALUATION_DIMENSIONS msgs state indices = Ok state' ->
    Forall scored_in_unit_range state'.1.
Proof.
  induction indices as [|i indices IH]; intros state state' Hall;
    cbn [evaluate_turns].
  - by intros [= <-].
  - destruct (evaluate_turn EVALUATION_DIMENSIONS msgs state i)
      as [state1|e] eqn:Hturn; cbn [bind]; [|discriminate].
    apply IH. by apply (evaluate_turn_in_unit_range msgs state state1 i).
Qed.

Lemma evaluate_conversation_in_unit_range (msgs : list Message)
  (scores : list ResponseEvaluation) (avg : Q) (avgs : list (string * Q)) :
  evaluate_conversation EVALUATION_DIMENSIONS msgs
  = Ok (Evaluated scores avg avgs) ->
  (0 <= avg <= 1)%Q.
Proof.
  unfold evaluate_conversation.
  destruct (evaluate_turns EVALUATION_DIMENSIONS msgs ([], [])
              (range_by_two (length msgs))) as [final|e] eqn:Hloop;
    cbn [bind]; [|discriminate].
  pose proof (evaluate_turns_in_unit_range msgs _ ([], []) final
                (Forall_nil_2 _) Hloop) as Hall.
  destruct final.1 as [|s ss]; [discriminate|].
  destruct (mapM _ EVALUATION_DIMENSIONS) as [avgs'|e]; cbn [bind];
    [|discriminate].
  intros [= <- <- <-].
  assert (Hmean : (Py.sum (map total_score (s :: ss)) / flen (s :: ss)
                   == mean (map total_score (s :: ss)))%Q).
  { unfold mean, Py.sum, flen. cbn [map]. rewrite sum_fold_right.
    apply Qmult_comp; [lra|]. cbn [length]. by rewrite length_map. }
  rewrite Hmean. apply mean_bounds; [done|].
  apply Forall_fmap. eapply Forall_impl; [exact Hall|].
  by intros s' (_ & Hs' & _).
Qed.

Lemma dict_set_values {V} (P : V -> Prop) (k : string) (v : V)
  (d : list (string * V)) :
  Forall (fun kv => P kv.2) d -> P v ->
  Forall (fun kv => P kv.2) (dict_set k v d).
Proof.
  intros Hd Hv. induction Hd as [|[k' v'] d Hv' Hd IH]; cbn [dict_set].
  - by constructor.
  - destruct (String.eqb k' k); by constructor.
Qed.

Lemma dict_get_value {V} (P : V -> Prop) (k : string) (v : V)
  (d : list (string * V)) :
  Forall (fun kv => P kv.2) d -> dict_get k d = Some v -> P v.
Proof.
  induction 1 as [|[k' v'] d Hv' _ IH]; cbn [dict_get]; [done|].
  destruct (String.eqb k' k); [by intros [= <-]|done].
Qed.

Lemma evaluate_api_in_unit_range (walk : list (string * list string))
  (load : string -> result (list Message))
  (test_evaluation : list (string * ApiEvaluation))
  (api_name : string) (conversation_id : option string) :
  Forall (fun kv => countable_in_unit_range kv.2) test_evaluation ->
  Forall (fun kv => countable_in_unit_range kv.2)
    (evaluate_api walk load test_evaluation api_name conversation_id).
Proof.
  intros Hall. unfold evaluate_api.
  destruct conversation_id as [conversation_id|]; [|done].
  destruct (String.eqb conversation_id ""); [done|].
  destruct (find_conversation_file conversation_id api_name walk)
    as [conv_file|]; [|by apply dict_set_values].
  destruct (load conv_file) as [msgs|e]; cbn [bind];
    [|by apply dict_set_values].
  destruct (evaluate_conversation EVALUATION_DIMENSIONS msgs)
    as [[scores avg avgs|err]|e] eqn:Hev;
    apply dict_set_values; try done.
  intros _. cbn [average_score_of].
  by apply (evaluate_conversation_in_unit_range msgs scores avg avgs).
Qed.

Lemma evaluate_flow_in_unit_range (walk : list (string * list string))
  (load : string -> result (list Message))
  (api_results : list (string * option string)) :
  Forall (fun kv => countable_in_unit_range kv.2)
    (evaluate_flow walk load api_results).
Proof.
  unfold evaluate_flow. generalize (Forall_nil_2
    (fun kv : string * ApiEvaluation => countable_in_unit_range kv.2)).
  generalize (@nil (string * ApiEvaluation)).
  induction api_results as [|[api_name conversation_id] rest IH];
    intros acc Hacc; [done|].
  cbn [fold_left]. apply IH. by apply evaluate_api_in_unit_range.
Qed.

Lemma collect_score_in_unit_range (acc : list (string * list Q))
  (entry : string * ApiEvaluation) :
  countable_in_unit_range entry.2 ->
  Forall (fun kv => Forall (fun x => 0 <= x <= 1)%Q kv.2) acc ->
  Forall (fun kv => Forall (fun x => 0 <= x <= 1)%Q kv.2)
    (collect_score acc entry).
Proof.
  destruct entry as [api_name api_eval]. cbn [snd]. intros Hentry Hacc.
  unfold collect_score. destruct (has_error api_eval) eqn:Herr; [done|].
  apply (dict_set_values (Forall (fun x => 0 <= x <= 1)%Q)); [done|].
  apply Forall_app. split; [|by constructor; [apply Hentry|]].
  destruct (dict_get api_name acc) as [scores|] eqn:Hget; [|done].
  by apply (dict_get_value _ api_name scores acc).
Qed.

Lemma collect_scores_in_unit_range
  (evaluation_results : list (string * list (string * ApiEvaluation))) :
  Forall (fun flow => Forall (fun kv => countable_in_unit_range kv.2) flow.2)
    evaluation_results ->
  Forall (fun kv => Forall (fun x => 0 <= x <= 1)%Q kv.2)
    (collect_scores evaluation_results).
Proof.
  unfold collect_scores. intros Hflows.
  assert (Hgen : forall acc : list (string * list Q),
            Forall (fun kv => Forall (fun x => 0 <= x <= 1)%Q kv.2) acc ->
            Forall (fun kv => Forall (fun x => 0 <= x <= 1)%Q kv.2)
              (fold_left
                 (fun acc '(_, test_eval) =>
                    fold_left collect_score test_eval acc)
                 evaluation_results acc)).
  { induction Hflows as [|[flow_id test_eval] rest Hflow _ IH];
      intros acc Hacc; [done|].
    cbn [fold_left]. apply IH. cbn [snd] in Hflow. clear IH.
    revert acc Hacc. induction Hflow as [|entry test_eval Hentry _ IH];
      intros acc Hacc; [done|].
    cbn [fold_left]. apply IH. by apply collect_score_in_unit_range. }
  apply Hgen. constructor.
Qed.

(** X17: whatever the results file, the saved files and their contents,
    every overall score [evaluate_api_responses] reports lies in
    [0, 1]. *)
Theorem overall_scores_in_unit_range (walk : list (string * list string))
  (load : string -> result (list Message))
  (results : list (string * list (string * option string))) :
  Forall (fun kv => 0 <= kv.2 <= 1)%Q
    (evaluate_api_responses walk load results).2.
Proof.
  assert (Hflows : Forall (fun flow =>
            Forall (fun kv => countable_in_unit_range kv.2) flow.2)
            (evaluate_flows walk load results)).
  { unfold evaluate_flows. apply Forall_forall. intros flow Hflow.
    apply list_elem_of_In, in_map_iff in Hflow
      as ([flow_id api_results] & <- & _).
    apply evaluate_flow_in_unit_range. }
  apply collect_scores_in_unit_range in Hflows.
  unfold evaluate_api_responses, overall_scores. cbn [snd].
  apply Forall_forall. intros [api_name q] Hin.
  apply list_elem_of_In, in_map_iff in Hin as ([name scores] & [= <- <-] & Hin).
  apply list_elem_of_In in Hin.
  pose proof (proj1 (Forall_forall _ _) Hflows (name, scores) Hin) as Hall.
  cbn [snd] in *. destruct scores as [|x xs]; [lra|].
  assert (Hmean : (Py.sum (x :: xs) / flen (x :: xs) == mean (x :: xs))%Q).
  { unfold mean, Py.sum, flen. rewrite sum_fold_right.
    apply Qmult_comp; [lra|reflexivity]. }
  rewrite Hmean. by apply mean_bounds.
Qed.
End BatchRangeFacts.

(** ** Chat clients and conversation flows *)

Section ClientFacts.
Import Py Models Evaluation Spec Reference Clients.

(** X18: the image download of [GeminiClient.send_message] is attempted
    at most three times: the image is sent along exactly when one of the
    attempts 0, 1, 2 succeeds; the delays slept are none, 2, or 2 then 4
    seconds; none exactly when the first attempt succeeds, and 2 then 4
    when the first two attempts fail. *)
Theorem fetch_image_retries (download_ok : nat -> bool) :
  let image := (fetch_image download_ok).1 in
  let delays := (fetch_image download_ok).2 in
  (image = true <->
   exists attempt, (attempt < 3)%nat /\ download_ok attempt = true)
  /\ (delays = [] \/ delays = [2%Z] \/ delays = [2%Z; 4%Z])
  /\ (delays = [] <-> download_ok 0%nat = true)
  /\ (download_ok 0%nat = false -> download_ok 1%nat = false ->
      delays = [2%Z; 4%Z]).
Proof.
  unfold fetch_image. cbn.
  destruct (download_ok 0%nat) eqn:H0; cbn.
  { split; [split; [intros _; exists 0%nat; split; [lia|done]|done]|].
    split; [by left|]. split; [done|]. done. }
  destruct (download_ok 1%nat) eqn:H1; cbn.
  { split; [split; [intros _; exists 1%nat; split; [lia|done]|done]|].
    split; [by right; left|]. split; [|done]. split; [done|done]. }
  destruct (download_ok 2%nat) eqn:H2; cbn.
  { split; [split; [intros _; exists 2%nat; split; [lia|done]|done]|].
    split; [by right; right|]. split; [|done]. split; [done|done]. }
  split.
  { split; [done|]. intros (attempt & Hlt & Hok).
    destruct attempt as [|[|[|attempt]]]; [congruence..|lia]. }
  split; [by right; right|]. split; [|done]. split; [done|done].
Qed.

(** X19: [send_message] of the chat clients with the identifier of a
    stored conversation appends the user message to it, sends all its
    messages, and on a reply appends the assistant message and returns the
    reply with the same identifier. When the request fails it returns no
    result, and the user message stays in the conversation. Pointers and
    other conversations are unchanged. *)
Theorem chat_send_message_continues (api model_name : string)
  (vendor : Vendor) (uuid : string) (clock : nat -> Q) (prompt : str)
  (image_url : option str) (conv_id : string) (st : ConversationManager)
  (c : Conversation) :
  client_ok vendor = true -> conv_id <> "" ->
  get_conversation conv_id st = Some c ->
  let sent :=
    chat_send_message api model_name vendor uuid clock prompt image_url
      (Some conv_id) st in
  let user_message :=
    {| role := "user"; content := chat_content prompt image_url;
       timestamp := clock 0%nat |} in
  current_conversation_ids sent.1 = current_conversation_ids st
  /\ (forall other, other <> conv_id ->
        get_conversation other sent.1 = get_conversation other st)
  /\ match reply vendor (messages c ++ [user_message]) with
     | Ok answer =>
         sent.2 = Some (answer, conv_id)
         /\ get_conversation conv_id sent.1
            = Some (set_messages
                      (messages c
                       ++ [user_message;
                           {| role := "assistant"; content := answer;
                              timestamp := clock 2%nat |}]) c)
     | Raise _ =>
         sent.2 = None
         /\ get_conversation conv_id sent.1
            = Some (set_messages (messages c ++ [user_message]) c)
     end.
Proof.
  intros Hclient Hid Hget. unfold chat_send_message, given_id.
  rewrite Hclient, (proj2 (String.eqb_neq conv_id "") Hid). cbn [negb].
  rewrite Hget. cbn [add_message set_messages messages].
  destruct (reply vendor _) as [answer|e]; cbn [fst snd].
  - unfold get_conversation, register. cbn [conversations].
    rewrite !dict_get_set_eq. split; [done|]. split.
    + intros other Hother. by rewrite !dict_get_set_ne.
    + split; [done|]. unfold add_message, set_messages.
      cbn [messages id api_name model start_time end_time metrics].
      by rewrite <- app_assoc.
  - unfold get_conversation, register. cbn [conversations].
    rewrite !dict_get_set_eq. split; [done|]. split; [|done].
    intros other Hother. by rewrite !dict_get_set_ne.
Qed.

(** X20: [send_message] of the chat clients returns no result and leaves
    the store as it is when the client cannot be set up, or when the
    identifier given is not a key of the store. *)
Theorem chat_send_message_refused (api model_name : string)
  (vendor : Vendor) (uuid : string) (clock : nat -> Q) (prompt : str)
  (image_url : option str) (conv_id : string) (st : ConversationManager) :
  (client_ok vendor = false
   \/ (conv_id <> "" /\ get_conversation conv_id st = None)) ->
  chat_send_message api model_name vendor uuid clock prompt image_url
    (Some conv_id) st = (st, None).
Proof.
  unfold chat_send_message, given_id.
  destruct (client_ok vendor); [|done].
  intros [Hclient|[Hid Hget]]; [done|].
  rewrite (proj2 (String.eqb_neq conv_id "") Hid). cbn [negb].
  by rewrite Hget.
Qed.

(** X21: [send_message] of the chat clients keeps the store invariant
    (every pointer that is set names a stored conversation), whether it
    starts a conversation or continues one, and whether the request
    succeeds or fails. *)
Theorem chat_send_message_keeps_invariant (api model_name : string)
  (vendor : Vendor) (uuid : string) (clock : nat -> Q) (prompt : str)
  (image_url : option str) (conversation_id : option string)
  (st : ConversationManager) :
  store_invariant st ->
  store_invariant
    (chat_send_message api model_name vendor uuid clock prompt image_url
       conversation_id st).1.
Proof.
  intros Hinv. unfold chat_send_message.
  destruct (client_ok vendor); [|done]. cbn [negb].
  set (st1 := match given_id conversation_id with
              | Some conv_id => (st, conv_id, 0%nat)
              | None =>
                  ((start_conversation uuid (clock 0%nat) api model_name st).1,
                   (start_conversation uuid (clock 0%nat) api model_name st).2,
                   1%nat)
              end).
  assert (Hst1 : store_invariant st1.1.1).
  { subst st1. destruct (given_id conversation_id); [done|].
    apply (run_keeps_invariant
             (StartConversation uuid (clock 0%nat) api model_name) st Hinv). }
  destruct st1 as [[st1 conv_id] tick]. cbn [fst] in Hst1.
  destruct (get_conversation conv_id st1) as [c|]; [|done].
  destruct (reply vendor _); cbn [fst];
    repeat apply register_keeps_invariant; done.
Qed.
End ClientFacts.

Section FlowFacts.
Import Py Models Evaluation Spec Reference Clients.
Context `{Builtins}.

Lemma chat_send_message_answered (api model_name : string) (turn : Turn)
  (answer : str) (conv_id : string) (st : ConversationManager)
  (c : Conversation) :
  answered turn answer -> conv_id <> "" ->
  get_conversation conv_id st = Some c ->
  exists st',
    chat_send_message api model_name (vendor turn) (uuid turn) (clock turn)
      (prompt turn) (image_url turn) (Some conv_id) st
    = (st', Some (PyStr answer, conv_id))
    /\ get_conversation conv_id st'
       = Some (set_messages
                 (messages c ++ exchange turn 0 (PyStr answer)) c).
Proof.
  intros [Hclient Hreply] Hid Hget. unfold chat_send_message, given_id.
  rewrite Hclient, (proj2 (String.eqb_neq conv_id "") Hid). cbn [negb].
  rewrite Hget, Hreply. eexists. split; [done|].
  unfold get_conversation, register. cbn [conversations].
  rewrite dict_get_set_eq. unfold add_message, set_messages, exchange.
  cbn [messages id api_name model start_time end_time metrics].
  by rewrite <- app_assoc.
Qed.

Lemma chat_send_message_starts (api model_name : string) (turn : Turn)
  (answer : str) (st : ConversationManager) :
  answered turn answer ->
  exists st',
    chat_send_message api model_name (vendor turn) (uuid turn) (clock turn)
      (prompt turn) (image_url turn) None st
    = (st', Some (PyStr answer, uuid turn))
    /\ get_conversation (uuid turn) st'
       = Some {| id := uuid turn; api_name := api;
                 messages := exchange turn 1 (PyStr answer);
                 model := model_name; start_time := clock turn 0%nat;
                 end_time := None; metrics := None |}.
Proof.
  intros [Hclient Hreply]. unfold chat_send_message, given_id.
  rewrite Hclient. cbn [negb start_conversation fst snd].
  unfold get_conversation at 1. cbn [set_current register conversations].
  rewrite dict_get_set_eq, Hreply. eexists. split; [done|].
  unfold get_conversation, register. cbn [conversations].
  by rewrite dict_get_set_eq.
Qed.

Lemma run_turns_continue (api model_name : string) (flow : list Turn) :
  forall (answers : list str) (st : ConversationManager) (c : Conversation)
         (conv_id : string) (results : list (str * pyval)),
    conv_id <> "" ->
    get_conversation conv_id st = Some c ->
    Forall2 answered flow answers ->
    exists st',
      run_turns (chat_send_message api model_name) flow (Some conv_id)
        results st
      = (st', Some conv_id,
         results
         ++ map (fun t => (t.1, PyStr t.2)) (exchanged_texts flow answers))
      /\ get_conversation conv_id st'
         = Some (set_messages (messages c ++ exchanges flow answers) c).
Proof.
  induction flow as [|turn flow IH];
    intros answers st c conv_id results Hid Hget Hall.
  - apply Forall2_nil_inv_l in Hall as ->. exists st. cbn.
    rewrite !app_nil_r. split; [done|]. rewrite Hget. by destruct c.
  - apply Forall2_cons_inv_l in Hall
      as (answer & answers' & [Hclient Hreply] & Hall & ->).
    cbn [run_turns exchanges exchanged_texts].
    destruct (chat_send_message_answered api model_name turn answer conv_id
                st c) as (st1 & -> & Hget1); [done..|].
    destruct (IH answers' st1 _ conv_id
                (results ++ [(prompt turn, PyStr answer)]) Hid Hget1 Hall)
      as (st' & -> & Hget').
    exists st'. split.
    + by rewrite <- app_assoc.
    + rewrite Hget'. cbn [set_messages messages id api_name model start_time
                            end_time metrics].
      by rewrite <- app_assoc.
Qed.

Lemma chat_content_text (p : str) (url : option str) :
  typed_content (chat_content p url) = true
  /\ extract_text (chat_content p url) = Ok (PyStr p).
Proof.
  unfold chat_content. destruct (given_url url) as [u|]; [|done].
  split; vm_compute; reflexivity.
Qed.

Lemma alternating_app (msgs1 msgs2 : list Message)
  (texts1 texts2 : list (str * str)) :
  alternating msgs1 texts1 -> alternating msgs2 texts2 ->
  alternating (msgs1 ++ msgs2) (texts1 ++ texts2).
Proof.
  induction 1; intros Hrest; [done|]. cbn [app].
  constructor; auto.
Qed.

Lemma alternating_exchange (turn : Turn) (tick : nat) (answer : str) :
  alternating (exchange turn tick (PyStr answer)) [(prompt turn, answer)].
Proof.
  destruct (chat_content_text (prompt turn) (image_url turn)) as [Ht He].
  unfold exchange. constructor; try done. constructor.
Qed.

Lemma alternating_exchanges (flow : list Turn) (answers : list str) :
  alternating (exchanges flow answers) (exchanged_texts flow answers).
Proof.
  revert answers. induction flow as [|turn flow IH]; intros [|answer answers];
    cbn [exchanges exchanged_texts]; [constructor..|].
  apply (alternating_app _ _ [_]); [apply alternating_exchange|apply IH].
Qed.

Lemma omap_shift {A} (f g : nat -> option A) (l : list nat) :
  (forall k, f (S k) = g k) -> omap f (S <$> l) = omap g l.
Proof.
  intros Hfg. induction l as [|k l IH]; [done|]. csimpl.
  by rewrite Hfg, IH.
Qed.

Lemma turns_pairs_first (u a : Message) (msgs : list Message) :
  turns (u :: a :: msgs) = (u, a) :: turns msgs.
Proof.
  unfold turns. cbn [length].
  replace (S (S (length msgs)) / 2)%nat with (S (length msgs / 2)).
  2:{ change (S (S (length msgs))) with (1 * 2 + length msgs)%nat.
      by rewrite Nat.div_add_l. }
  cbn [seq]. rewrite <- fmap_S_seq.
  cbn [omap list_omap Nat.mul Nat.add lookup list_lookup]. f_equal.
  apply omap_shift. intros k.
  replace (S k + (S k + 0))%nat with (S (S (k + (k + 0)))) by lia.
  done.
Qed.

Lemma alternating_turn_texts (msgs : list Message)
  (texts : list (str * str)) :
  alternating msgs texts -> Forall2 turn_texts (turns msgs) texts.
Proof.
  induction 1 as [|u a p r msgs texts Hu Ha Ht He Hr _ IH]; [constructor|].
  rewrite turns_pairs_first. constructor; [|done]. by split.
Qed.

Lemma alternating_counts (msgs : list Message) (texts : list (str * str)) :
  alternating msgs texts ->
  count_role "user" msgs = length texts
  /\ length msgs = (2 * length texts)%nat
  /\ Forall (fun m => typed_content (content m) = true) msgs.
Proof.
  induction 1 as [|u a p r msgs texts Hu Ha Ht He Hr _ (IH1 & IH2 & IH3)];
    [done|].
  cbn [count_role length]. rewrite Hu, Ha, IH1, IH2. cbn.
  split; [done|]. split; [lia|].
  constructor; [done|]. constructor; [by rewrite Hr|done].
Qed.

Lemma exchanged_texts_length (flow : list Turn) (answers : list str) :
  Forall2 answered flow answers ->
  length (exchanged_texts flow answers) = length flow.
Proof. induction 1; [done|]. cbn. by f_equal. Qed.

(** Under the default dimensions a conversation whose turns are texts is
    evaluated, turn by turn. *)
Lemma evaluate_conversation_default (msgs : list Message)
  (texts : list (str * str)) :
  Forall2 turn_texts (turns msgs) texts ->
  exists ev,
    evaluate_conversation EVALUATION_DIMENSIONS msgs = Ok ev
    /\ score_turns EVALUATION_DIMENSIONS [] texts = Ok (turn_scores_of ev)
    /\ length (turn_scores_of ev) = length texts.
Proof.
  intros Htexts.
  destruct (evaluate_turns_default msgs texts Htexts) as (ss & Hloop & Hss & _).
  destruct (score_turns_default [] texts) as (ss' & Hss' & Hlen & Hall).
  assert (ss' = ss) as -> by congruence.
  unfold evaluate_conversation. rewrite Hloop. cbn [bind fst].
  destruct ss as [|s ss].
  - eexists. by repeat split.
  - destruct (average_dimensions_default (s :: ss) Hall) as [avgs ->].
    cbn [bind]. eexists. by repeat split.
Qed.

(** X22: a flow whose calls all succeed with text replies runs in one
    conversation, the one the first call starts: every later call gets the
    identifier the call before returned. The conversation holds one user
    and one assistant message per turn, in order; its metrics count as
    many turns as the flow has, and its evaluation scores as many turns,
    each prompt against its own reply. *)
Theorem successful_flow_is_counted_and_scored (api model_name : string)
  (first : Turn) (flow : list Turn) (answer : str) (answers : list str)
  (st : ConversationManager) (now : Q) :
  uuid first <> "" ->
  Forall2 answered (first :: flow) (answer :: answers) ->
  let texts := exchanged_texts (first :: flow) (answer :: answers) in
  exists st' c,
    run_turns (chat_send_message api model_name) (first :: flow) None [] st
    = (st', Some (uuid first), map (fun t => (t.1, PyStr t.2)) texts)
    /\ get_conversation (uuid first) st' = Some c
    /\ messages c
       = exchange first 1 (PyStr answer) ++ exchanges flow answers
    /\ (exists m,
          (calculate_metrics now c).2 = Ok m
          /\ num_turns m = length (first :: flow))
    /\ (exists ev,
          evaluate_conversation EVALUATION_DIMENSIONS (messages c) = Ok ev
          /\ length (turn_scores_of ev) = length (first :: flow)
          /\ score_turns EVALUATION_DIMENSIONS [] texts
             = Ok (turn_scores_of ev)).
Proof.
  intros Hid Hall texts.
  apply Forall2_cons in Hall as [Hfirst Hrest].
  destruct (chat_send_message_starts api model_name first answer st Hfirst)
    as (st1 & Hsend & Hget1).
  destruct (run_turns_continue api model_name flow answers st1 _
              (uuid first) [(prompt first, PyStr answer)] Hid Hget1 Hrest)
    as (st' & Hrun & Hget').
  cbn [messages set_messages] in Hget'.
  eexists st', _. cbn [run_turns]. rewrite Hsend. cbn [app] in Hrun |- *.
  split; [exact Hrun|]. split; [exact Hget'|].
  cbn [messages].
  assert (Halt : alternating
                   (exchange first 1 (PyStr answer) ++ exchanges flow answers)
                   texts).
  { apply (alternating_app _ _ [_]);
      [apply alternating_exchange|apply alternating_exchanges]. }
  assert (Hlen : length texts = S (length flow)).
  { subst texts. cbn. by rewrite exchanged_texts_length. }
  destruct (alternating_counts _ _ Halt) as (Hcount & _ & Htyped).
  split; [done|]. split.
  - match goal with
    | |- context [calculate_metrics now ?c] =>
        destruct (calculate_metrics_typed now c Htyped) as (m & Hm & Hturns & _)
    end.
    exists m. split; [done|].
    transitivity (count_role "user"
                    (exchange first 1 (PyStr answer) ++ exchanges flow answers));
      [exact Hturns|]. by rewrite Hcount, Hlen.
  - destruct (evaluate_conversation_default _ texts
                (alternating_turn_texts _ _ Halt)) as (ev & Hev & Hss & Hn).
    exists ev. split; [done|]. split; [|done]. by rewrite Hn, Hlen.
Qed.
End FlowFacts.

Section FlowFailureFacts.
Import Py Models Evaluation Spec Reference Clients.
Context `{Builtins}.

Lemma run_turns_app_answered (api model_name : string) (flow : list Turn) :
  forall (answers : list str) (more : list Turn) (st : ConversationManager)
         (c : Conversation) (conv_id : string) (results : list (str * pyval)),
    conv_id <> "" ->
    get_conversation conv_id st = Some c ->
    Forall2 answered flow answers ->
    exists st',
      run_turns (chat_send_message api model_name) (flow ++ more)
        (Some conv_id) results st
      = run_turns (chat_send_message api model_name) more (Some conv_id)
          (results
           ++ map (fun t => (t.1, PyStr t.2)) (exchanged_texts flow answers))
          st'
      /\ get_conversation conv_id st'
         = Some (set_messages (messages c ++ exchanges flow answers) c).
Proof.
  induction flow as [|turn flow IH];
    intros answers more st c conv_id results Hid Hget Hall.
  - apply Forall2_nil_inv_l in Hall as ->. exists st. cbn.
    rewrite !app_nil_r. split; [done|]. rewrite Hget. by destruct c.
  - apply Forall2_cons_inv_l in Hall
      as (answer & answers' & Hturn & Hall & ->).
    cbn [run_turns exchanges exchanged_texts app].
    destruct (chat_send_message_answered api model_name turn answer conv_id
                st c) as (st1 & -> & Hget1); [done..|].
    destruct (IH answers' more st1 _ conv_id
                (results ++ [(prompt turn, PyStr answer)]) Hid Hget1 Hall)
      as (st' & -> & Hget').
    exists st'. split.
    + by rewrite <- app_assoc.
    + rewrite Hget'. cbn [set_messages messages id api_name model start_time
                            end_time metrics].
      by rewrite <- app_assoc.
Qed.

(** X23: when a call of a flow fails after successful ones, the loop
    stops with no conversation identifier, so the driver finds no
    conversation to end. The conversation is still in the store, under the
    first identifier, with the exchanges made and the unanswered user
    message, neither ended nor measured; the results of the turns made are
    kept. *)
Theorem failed_turn_loses_the_conversation (api model_name : string)
  (first : Turn) (flow : list Turn) (answer : str) (answers : list str)
  (failing : Turn) (rest : list Turn) (st : ConversationManager) :
  uuid first <> "" ->
  Forall2 answered (first :: flow) (answer :: answers) ->
  client_ok (vendor failing) = true ->
  (forall msgs, exists e, reply (vendor failing) msgs = Raise e) ->
  exists st' c,
    run_turns (chat_send_message api model_name)
      (first :: flow ++ failing :: rest) None [] st
    = (st', None,
       map (fun t => (t.1, PyStr t.2))
         (exchanged_texts (first :: flow) (answer :: answers)))
    /\ get_conversation (uuid first) st' = Some c
    /\ messages c
       = exchange first 1 (PyStr answer) ++ exchanges flow answers
         ++ [{| role := "user";
                content := chat_content (prompt failing) (image_url failing);
                timestamp := clock failing 0%nat |}]
    /\ end_time c = None /\ metrics c = None.
Proof.
  intros Hid Hall Hclient Hraise.
  apply Forall2_cons in Hall as [Hfirst Hrest].
  destruct (chat_send_message_starts api model_name first answer st Hfirst)
    as (st1 & Hsend & Hget1).
  destruct (run_turns_app_answered api model_name flow answers
              (failing :: rest) st1 _ (uuid first)
              [(prompt first, PyStr answer)] Hid Hget1 Hrest)
    as (st2 & Hrun & Hget2).
  cbn [run_turns app]. rewrite Hsend. cbn [app] in Hrun. rewrite Hrun.
  cbn [run_turns]. unfold chat_send_message at 1, given_id.
  rewrite Hclient, (proj2 (String.eqb_neq (uuid first) "") Hid). cbn [negb].
  rewrite Hget2.
  match goal with
  | |- context [reply (vendor failing) ?msgs] =>
      destruct (Hraise msgs) as [e ->]
  end.
  eexists _, _. split; [done|].
  unfold get_conversation, register. cbn [conversations].
  rewrite dict_get_set_eq. split; [done|].
  cbn [add_message set_messages messages end_time metrics].
  by rewrite <- app_assoc.
Qed.
End FlowFailureFacts.

(** ** The properties above on the example inputs *)

Section ScenarioFacts.
Import Py Models Evaluation Spec Examples.
Import Reference Batch Clients Scenarios.
#[local] Existing Instance example_builtins.

Lemma newton_sqrt_positive (fuel : nat) (x : Q) :
  (0 < x)%Q -> forall g : Q, (0 < g)%Q -> (0 < newton_sqrt fuel x g)%Q.
Proof.
  intros Hx. induction fuel as [|fuel IH]; intros g Hg; [done|].
  cbn [newton_sqrt]. apply IH. rewrite Qred_correct.
  assert (0 < x / g)%Q by (apply Qlt_shift_div_l; lra).
  apply Qlt_shift_div_l; lra.
Qed.

Lemma example_sqrt_nonneg (x : Q) : (0 <= sqrt x)%Q.
Proof.
  cbn [sqrt example_builtins]. destruct (Qle_bool x 0) eqn:Hle; [lra|].
  apply Qlt_le_weak, newton_sqrt_positive; [|lra].
  apply Qnot_le_lt. intros Hx. apply Qle_bool_iff in Hx. congruence.
Qed.

Lemma ticking_formatted (n : nat) :
  format_time_error writable (ticking n) = None.
Proof.
  unfold writable, ticking. cbn [format_time_error].
  assert (Hle : Qle_bool 0 (inject_Z (100 + Z.of_nat n)) = true).
  { apply Qle_bool_iff. change 0%Q with (inject_Z 0).
    rewrite <- Zle_Qle. lia. }
  by rewrite Hle.
Qed.

Lemma avg_response_length_of_two_turns :
  exists q,
    _calculate_avg_response_length two_turns = Ok q
    /\ (q == mean (map (fun m => inject_Z (text_length (content m)))
                   (assistant_messages two_turns)))%Q
    /\ (assistant_messages two_turns = [] -> q = 0%Q).
Proof.
  apply (avg_response_length_is_mean_text_length two_turns).
  repeat constructor.
Defined.

Lemma metrics_of_missing_content :
  (calculate_metrics 130 (conversation_of missing_content)).2
  = Raise TypeError
  /\ metrics (calculate_metrics 130 (conversation_of missing_content)).1
     = metrics (conversation_of missing_content)
  /\ is_Some (end_time (calculate_metrics 130
                          (conversation_of missing_content)).1).
Proof.
  apply (calculate_metrics_fails_on_missing_content 130
           (conversation_of missing_content) unanswered);
    [|reflexivity|reflexivity].
  simpl. right. left.
Defined.

Lemma gemini_conversation_started :
  let st' :=
    (start_conversation "id-2" 200 "gemini" "gemini-2.5-pro"
       openai_session).1 in
  let fresh :=
    {| id := "id-2"; api_name := "gemini"; messages := [];
       model := "gemini-2.5-pro"; start_time := 200; end_time := None;
       metrics := None |} in
  (start_conversation "id-2" 200 "gemini" "gemini-2.5-pro" openai_session).2
  = "id-2"
  /\ get_current_conversation "gemini" st' = Some fresh
  /\ get_conversation "id-2" st' = Some fresh
  /\ (forall other, other <> "id-2" ->
        get_conversation other st' = get_conversation other openai_session)
  /\ (forall api', api' <> "gemini" ->
        current_conversation_ids st' !! api'
        = current_conversation_ids openai_session !! api').
Proof.
  apply (start_conversation_becomes_current "id-2" 200 "gemini"
           "gemini-2.5-pro" openai_session).
  discriminate.
Defined.

Lemma two_more_messages_stored :
  get_conversation "c1" (add_messages "c1" missing_content stored)
  = Some (set_messages (messages (conversation_of two_turns)
                        ++ missing_content) (conversation_of two_turns))
  /\ (forall other, other <> "c1" ->
        get_conversation other (add_messages "c1" missing_content stored)
        = get_conversation other stored).
Proof.
  apply (add_messages_appends_in_order "c1" missing_content stored
           (conversation_of two_turns)).
  reflexivity.
Defined.

Lemma openai_session_saved :
  let st' :=
    (save_all_conversations ticking writable "conversations"
       openai_session).1 in
  exists files,
    (save_all_conversations ticking writable "conversations"
       openai_session).2 = Ok files
    /\ current_conversation_ids st' = current_conversation_ids openai_session
    /\ Forall2 (fun kc kc' => kc'.1 = kc.1 /\ saved_from kc.2 kc'.2)
         (conversations openai_session) (conversations st')
    /\ Forall2 (fun kc' file =>
                  save_to_file writable "conversations" kc'.2 = Ok file)
         (conversations st') files.
Proof.
  apply (save_all_conversations_saves_each ticking writable "conversations"
           openai_session);
    [reflexivity|intros f; reflexivity|intros n; apply ticking_formatted|].
  repeat constructor. intros t [= <-]. reflexivity.
Defined.

Lemma saved_two_turns_located :
  find_conversation_file "c1" "openai"
    [("conversations", ["summary_100.csv"; "openai_c1_100.json"])]
  = Some "conversations/openai_c1_100.json".
Proof.
  apply (saved_conversation_is_located writable "conversations"
           (conversation_of two_turns) "conversations/openai_c1_100.json"
           ["summary_100.csv"] [] []).
  - reflexivity.
  - repeat constructor.
Defined.

Lemma creativity_of_similes :
  let words := _tokenize (lower similes) in
  let diversity :=
    (fnat (size (list_to_set words : gset str))
     / at_least_one (length words))%Q in
  (0 <= diversity <= 1)%Q
  /\ (0.7 + 0.1 * diversity <= _evaluate_creativity similes)%Q
  /\ (_evaluate_creativity similes <= 0.9 + 0.1 * diversity)%Q
  /\ (0.7 <= _evaluate_creativity similes <= 1)%Q.
Proof.
  apply (creativity_is_never_clamped similes). exact example_sqrt_nonneg.
Defined.

Lemma two_turns_average_scores :
  exists scores avg avgs,
    evaluate_conversation EVALUATION_DIMENSIONS two_turns
    = Ok (Evaluated scores avg avgs)
    /\ (avg == mean (map total_score scores))%Q
    /\ (0 <= avg <= 1)%Q
    /\ Forall2 (fun kv dim =>
                  kv.1 = dim.1
                  /\ (kv.2 == mean (map (dimension_score dim.1) scores))%Q
                  /\ (0 <= kv.2 <= 1)%Q)
         avgs EVALUATION_DIMENSIONS.
Proof.
  apply (evaluate_conversation_reports_means two_turns two_turns_texts);
    [vm_compute; repeat constructor|simpl; lia].
Defined.

Lemma unlabelled_two_turns_evaluated_alike :
  evaluate_conversation EVALUATION_DIMENSIONS two_turns
  = evaluate_conversation EVALUATION_DIMENSIONS (unlabelled two_turns).
Proof.
  apply (evaluate_conversation_reads_contents_only EVALUATION_DIMENSIONS
           two_turns (unlabelled two_turns)).
  reflexivity.
Defined.

Lemma stored_conversation_continued :
  let sent :=
    chat_send_message "openai" "gpt-4.1" (answering "Hello again") "unused"
      ticking (lit "More") None (Some "c1") stored in
  let user_message :=
    {| role := "user"; content := chat_content (lit "More") None;
       timestamp := ticking 0 |} in
  current_conversation_ids sent.1 = current_conversation_ids stored
  /\ (forall other, other <> "c1" ->
        get_conversation other sent.1 = get_conversation other stored)
  /\ sent.2 = Some (PyStr (lit "Hello again"), "c1")
  /\ get_conversation "c1" sent.1
     = Some (set_messages
               (messages (conversation_of two_turns)
                ++ [user_message;
                    {| role := "assistant";
                       content := PyStr (lit "Hello again");
                       timestamp := ticking 2 |}])
               (conversation_of two_turns)).
Proof.
  apply (chat_send_message_continues "openai" "gpt-4.1"
           (answering "Hello again") "unused" ticking (lit "More") None "c1"
           stored (conversation_of two_turns));
    [reflexivity|discriminate|reflexivity].
Defined.

Lemma unknown_conversation_refused :
  chat_send_message "openai" "gpt-4.1" (answering "Hello") "unused" ticking
    (lit "Hi") None (Some "missing") init
  = (init, None).
Proof.
  apply (chat_send_message_refused "openai" "gpt-4.1" (answering "Hello")
           "unused" ticking (lit "Hi") None "missing" init).
  right. split; [discriminate|reflexivity].
Defined.

Lemma first_message_keeps_invariant :
  store_invariant init
  /\ store_invariant
       (chat_send_message "openai" "gpt-4.1" (answering "Hello") "id-7"
          ticking (lit "Hi") None None init).1.
Proof.
  split; [exact init_invariant|].
  apply (chat_send_message_keeps_invariant "openai" "gpt-4.1"
           (answering "Hello") "id-7" ticking (lit "Hi") None None init).
  exact init_invariant.
Defined.

Lemma greeting_and_question_answered :
  Forall2 answered [greeting; question]
    [lit "Hello"; lit "A field of study."].
Proof.
  repeat (constructor; [split; [reflexivity|intros msgs; reflexivity]|]).
  constructor.
Qed.

Lemma two_turn_flow_counted_and_scored :
  let texts :=
    exchanged_texts [greeting; question]
      [lit "Hello"; lit "A field of study."] in
  exists st' c,
    run_turns (chat_send_message "openai" "gpt-4.1") [greeting; question]
      None [] init
    = (st', Some (uuid greeting), map (fun t => (t.1, PyStr t.2)) texts)
    /\ get_conversation (uuid greeting) st' = Some c
    /\ messages c
       = exchange greeting 1 (PyStr (lit "Hello"))
         ++ exchanges [question] [lit "A field of study."]
    /\ (exists m,
          (calculate_metrics 200 c).2 = Ok m
          /\ num_turns m = length [greeting; question])
    /\ (exists ev,
          evaluate_conversation EVALUATION_DIMENSIONS (messages c) = Ok ev
          /\ length (turn_scores_of ev) = length [greeting; question]
          /\ score_turns EVALUATION_DIMENSIONS [] texts
             = Ok (turn_scores_of ev)).
Proof.
  apply (successful_flow_is_counted_and_scored "openai" "gpt-4.1" greeting
           [question] (lit "Hello") [lit "A field of study."] init 200).
  - discriminate.
  - exact greeting_and_question_answered.
Defined.

Lemma dropped_turn_loses_the_conversation :
  exists st' c,
    run_turns (chat_send_message "openai" "gpt-4.1")
      (greeting :: [question] ++ dropped :: [greeting]) None [] init
    = (st', None,
       map (fun t => (t.1, PyStr t.2))
         (exchanged_texts [greeting; question]
            [lit "Hello"; lit "A field of study."]))
    /\ get_conversation (uuid greeting) st' = Some c
    /\ messages c
       = exchange greeting 1 (PyStr (lit "Hello"))
         ++ exchanges [question] [lit "A field of study."]
         ++ [{| role := "user";
                content := chat_content (prompt dropped) (image_url dropped);
                timestamp := clock dropped 0%nat |}]
    /\ end_time c = None /\ metrics c = None.
Proof.
  apply (failed_turn_loses_the_conversation "openai" "gpt-4.1" greeting
           [question] (lit "Hello") [lit "A field of study."] dropped
           [greeting] init).
  - discriminate.
  - exact greeting_and_question_answered.
  - reflexivity.
  - intros msgs. by exists OSError.
Defined.
End ScenarioFacts.
